(** * The CosmWasm AssemblyScript guest shim ([cosmwasm.ts])

    A shallow embedding of [contract/src/cosmwasm.ts]: the Region memory
    protocol ([allocate], [deallocate], [readRegion], [releaseOwnership],
    [keepOwnership], [takeOwnership]), the two host call helpers ([log],
    [canonicalize]), the abort handler ([logAndCrash]) and the response
    envelope ([wrapOk]).

    The guest's linear memory is a finite map from object addresses to
    reference-counted objects; every function of the module is a
    computation in a state-and-failure monad over that memory.  Besides
    the explicit [__retain] and [__release] calls of the source, the
    references held by locals are counted: a local that holds an object
    retains it, and releases it when its function returns.  The host
    ([env.log], [env.canonicalize_address]) is a parameter. *)

From Stdlib Require Import ZArith NArith Lia List.
From Stdlib Require Import Strings.String Strings.Ascii Strings.Byte.
From Stdlib Require Import Numbers.DecimalString.
From stdpp Require Import strings gmap.

Local Open Scope N_scope.

(** ** Data model *)

(** [class Region { offset: u32; len: u32 }].  [usize] is [u32] on wasm32;
    addresses and lengths are natural numbers, and the module never does
    arithmetic on them that could wrap. *)
Record Region := mkRegion { offset : N; len : N }.

(** What lives at an address: the payload of an [ArrayBuffer], or a
    [Region] record. *)
Inductive object :=
| ArrayBuffer (data : list byte)
| RegionObj (r : Region).

(** A heap block: the object and the reference count kept in its header. *)
Record cell := mkCell { obj : object; rc : nat }.

(** The explicit reference-count calls the module's source makes. *)
Inductive rc_call :=
| Retain (p : N)
| Release (p : N).

(** The guest state: the live allocations, and the history of explicit
    [__retain] / [__release] calls (a ghost field, never read by the code). *)
Record state := mkState { heap : gmap N cell; rc_log : list rc_call }.

(** A typed-array view: the [ArrayBuffer] it keeps alive, where its data
    starts inside that buffer, and how many bytes it spans. *)
Record Uint8Array := mkUint8Array { buffer : N; byteOffset : N; byteLength : N }.

(** A thrown [Error] object ([name] is ["Error"] for [new Error(..)],
    ["RangeError"] for the standard library's range checks). *)
Record Error := mkError { name : string; message : string }.

Definition new_Error (msg : string) : Error := mkError "Error" msg.
Definition new_RangeError (msg : string) : Error := mkError "RangeError" msg.

(** Ways a raw pointer operation can go wrong (undefined behaviour in the
    real heap, made observable here). *)
Inductive fault :=
| Dangling (p : N)
| WrongClass (p : N)
| CountUnderflow (p : N).

(** How a call ends: it returns, it throws, the module is terminated
    ([unreachable]), or it steps outside the memory protocol. *)
Inductive outcome (A : Type) :=
| Ret (a : A) (s : state)
| Throw (e : Error) (s : state)
| Trap (s : state)
| Fault (f : fault).
Arguments Ret {A} a s.
Arguments Throw {A} e s.
Arguments Trap {A} s.
Arguments Fault {A} f.

Definition M (A : Type) : Type := state → outcome A.

#[global] Instance M_ret : MRet M := λ A a s, Ret a s.
#[global] Instance M_bind : MBind M := λ A B k m s,
  match m s with
  | Ret a s' => k a s'
  | Throw e s' => Throw e s'
  | Trap s' => Trap s'
  | Fault f => Fault f
  end.

Definition throw {A} (e : Error) : M A := λ s, Throw e s.
Definition unreachable {A} : M A := λ s, Trap s.

Definition set_heap (h : gmap N cell) (s : state) : state :=
  mkState h (rc_log s).
Definition log_call (c : rc_call) (s : state) : state :=
  mkState (heap s) (rc_log s ++ [c]).

(** ** The AssemblyScript runtime, as far as the module uses it *)

Module Runtime.

(** The allocator hands out an address above every live one (never 0). *)
Definition fresh_ptr (h : gmap N cell) : N :=
  N.succ (map_fold (λ k _ acc, N.max k acc) 0 h).

(** The largest block the allocator hands out is below [2^30 - 16] bytes. *)
Definition BLOCK_MAXSIZE : N := 2 ^ 30 - 16.

Section Alloc.
(** What linear memory holds at an address before anyone wrote there:
    [__alloc] does not zero the block. *)
Variable stale : N → byte.

Definition stale_bytes (p size : N) : list byte :=
  map (λ i, stale (p + N.of_nat i)) (seq 0 (N.to_nat size)).

(** [__alloc(size, idof<ArrayBuffer>())]: a new block starts with reference
    count 0; a size the allocator cannot serve aborts with "allocation too
    large". *)
Definition __alloc (size : N) : M N := λ s,
  if BLOCK_MAXSIZE <=? size then Throw (new_Error "allocation too large") s
  else
    let p := fresh_ptr (heap s) in
    Ret p (set_heap (<[p := mkCell (ArrayBuffer (stale_bytes p size)) 0]> (heap s)) s).
End Alloc.

(** [__retain(ptr)] *)
Definition __retain (p : N) : M unit := λ s,
  match heap s !! p with
  | Some c => Ret () (log_call (Retain p) (set_heap (<[p := mkCell (obj c) (S (rc c))]> (heap s)) s))
  | None => Fault (Dangling p)
  end.

(** [__release(ptr)]: the block is freed when its last reference goes. *)
Definition __release (p : N) : M unit := λ s,
  match heap s !! p with
  | Some c =>
      match rc c with
      | O => Fault (CountUnderflow p)
      | S O => Ret () (log_call (Release p) (set_heap (delete p (heap s)) s))
      | S n => Ret () (log_call (Release p) (set_heap (<[p := mkCell (obj c) n]> (heap s)) s))
      end
  | None => Fault (Dangling p)
  end.

(** [changetype<Region>(ptr)] followed by a field read. *)
Definition load_Region (p : N) : M Region := λ s,
  match heap s !! p with
  | Some (mkCell (RegionObj r) _) => Ret r s
  | Some _ => Fault (WrongClass p)
  | None => Fault (Dangling p)
  end.

(** [const region: Region = { offset, len }]: the record is allocated and
    the local [region] holds it, so it starts its life with count 1. *)
Definition new_Region (r : Region) : M N := λ s,
  let p := fresh_ptr (heap s) in
  Ret p (set_heap (<[p := mkCell (RegionObj r) 1]> (heap s)) s).

(** A local that holds the object at [p] goes out of scope when its
    function returns: the reference is released, and the block is freed if
    it was the last one.  This is not an explicit [__release] call. *)
Definition release_local (p : N) : M unit := λ s,
  match heap s !! p with
  | Some c =>
      match rc c with
      | O => Fault (CountUnderflow p)
      | S O => Ret () (set_heap (delete p (heap s)) s)
      | S n => Ret () (set_heap (<[p := mkCell (obj c) n]> (heap s)) s)
      end
  | None => Fault (Dangling p)
  end.

(** Reinterpretation of a [u32] as the [i32] parameter it is passed for. *)
Definition as_i32 (n : N) : Z :=
  if (n <? 2 ^ 31) then Z.of_N n else (Z.of_N n - 2 ^ 32)%Z.

(** [Uint8Array.wrap(changetype<ArrayBuffer>(ptr), byteOffset, length)]:
    a view on an existing buffer.  The view holds a reference to the
    buffer (managed by the compiler, not an explicit [__retain]). *)
Definition Uint8Array_wrap (p : N) (byteOffset : N) (length : Z) : M Uint8Array := λ s,
  match heap s !! p with
  | Some (mkCell (ArrayBuffer d) n) =>
      let bufferByteLength := N.of_nat (List.length d) in
      if bufferByteLength <? byteOffset then
        Throw (new_RangeError "Index out of range") s
      else if (length <? 0)%Z then
        if (length =? -1)%Z then
          Ret (mkUint8Array p byteOffset (bufferByteLength - byteOffset))
              (set_heap (<[p := mkCell (ArrayBuffer d) (S n)]> (heap s)) s)
        else Throw (new_RangeError "Invalid length") s
      else if bufferByteLength <? byteOffset + Z.to_N length then
        Throw (new_RangeError "Invalid length") s
      else
        Ret (mkUint8Array p byteOffset (Z.to_N length))
            (set_heap (<[p := mkCell (ArrayBuffer d) (S n)]> (heap s)) s)
  | Some _ => Fault (WrongClass p)
  | None => Fault (Dangling p)
  end.

(** A fresh array over its own new buffer (what the library functions
    returning a [Uint8Array] produce); the array owns one reference. *)
Definition new_Uint8Array (bs : list byte) : M Uint8Array := λ s,
  let p := fresh_ptr (heap s) in
  Ret (mkUint8Array p 0 (N.of_nat (List.length bs)))
      (set_heap (<[p := mkCell (ArrayBuffer bs) 1]> (heap s)) s).

(** The bytes an array shows, if its buffer is live. *)
Definition view_bytes (h : gmap N cell) (a : Uint8Array) : option (list byte) :=
  match h !! buffer a with
  | Some (mkCell (ArrayBuffer d) _) =>
      if N.of_nat (List.length d) <? byteOffset a + byteLength a then None
      else Some (take (N.to_nat (byteLength a)) (drop (N.to_nat (byteOffset a)) d))
  | _ => None
  end.

Definition read_bytes (a : Uint8Array) : M (list byte) := λ s,
  match view_bytes (heap s) a with
  | Some bs => Ret bs s
  | None => Fault (Dangling (buffer a))
  end.

(** A local that holds an array goes out of scope: the array's reference
    to its buffer is released. *)
Definition drop_array (a : Uint8Array) : M unit := release_local (buffer a).

End Runtime.
Import Runtime.

(** ** [./utils] *)

(** Modelled from the spec: [getDataPtr] is imported from [./utils]; a
    Region built from an array must describe that array's bytes, so it is
    the address of the array's first byte. *)
Definition getDataPtr (arr : Uint8Array) : N := buffer arr + byteOffset arr.

Module Encoding.
(** Modelled from the spec: [Encoding.toUtf8] is imported from [./utils];
    it "UTF-8-encodes the text".  Text is kept as the string of its UTF-8
    bytes, so the encoding is the byte list of the string, in a fresh
    array. *)
Definition toUtf8 (text : string) : M Uint8Array :=
  new_Uint8Array (list_byte_of_string text).
End Encoding.

(** ** Strings and numbers *)

(** [a || b] on [string | null]: the left operand unless it is [null]; the
    test is on the reference, so an empty string is kept. *)
Definition or_string (a : option string) (b : string) : string :=
  match a with
  | Some str => str
  | None => b
  end.

(** [toString()] of a [u32] and of an [i32]. *)
Definition u32_toString (n : N) : string :=
  NilEmpty.string_of_uint (N.to_uint n).
Definition i32_toString (z : Z) : string :=
  NilZero.string_of_int (Z.to_int z).

Definition dquote : string := String "034"%char EmptyString.

(** ** [./encoding/base64] *)

Module Base64.

Definition alphabet : string :=
  "ABCDEFGHIJKLMNOPQRSTUVWXYZabcdefghijklmnopqrstuvwxyz0123456789+/".

Definition pad : ascii := "="%char.

Definition digit (i : N) : ascii :=
  match String.get (N.to_nat i) alphabet with
  | Some c => c
  | None => pad
  end.

Definition chars (l : list ascii) : string := string_of_list_ascii l.

(** Three bytes give four digits; a tail of one or two bytes is padded. *)
Fixpoint encode_octets (l : list N) : string :=
  match l with
  | [] => EmptyString
  | [a] =>
      chars [digit (N.shiftr a 2);
             digit (N.shiftl (N.land a 3) 4);
             pad; pad]
  | [a; b] =>
      chars [digit (N.shiftr a 2);
             digit (N.lor (N.shiftl (N.land a 3) 4) (N.shiftr b 4));
             digit (N.shiftl (N.land b 15) 2);
             pad]
  | a :: b :: c :: rest =>
      chars [digit (N.shiftr a 2);
             digit (N.lor (N.shiftl (N.land a 3) 4) (N.shiftr b 4));
             digit (N.lor (N.shiftl (N.land b 15) 2) (N.shiftr c 6));
             digit (N.land c 63)]
      +:+ encode_octets rest
  end.

(** Modelled from the spec: [Base64.encode] is imported from
    [./encoding/base64]; it is "the standard base64 encoding (padded,
    standard alphabet)" of the bytes. *)
Definition encode (bs : list byte) : string :=
  encode_octets (map Byte.to_N bs).

End Base64.

(** ** [assemblyscript-json]: the encoder *)

Module JSONEncoder.

(** The encoder object: the stack of "no key written yet at this level"
    flags (top first) and the pieces written so far. *)
Record t := mk { isFirstKey : list bool; result : list string }.

Definition new : t := mk [true] [].

Definition write (str : string) (e : t) : t :=
  mk (isFirstKey e) (result e ++ [str]).

(** A backslash in front of [r]. *)
Definition esc (r : string) : string := String "092"%char r.

(** What [writeString] emits for one character; [None] is its
    "unsupported control character" assertion. *)
Definition escape_char (c : ascii) : option string :=
  let n := N_of_ascii c in
  if n =? 34 then Some (esc dquote)
  else if n =? 92 then Some (esc (esc EmptyString))
  else if n <? 32 then
    if n =? 8 then Some (esc "b")
    else if n =? 10 then Some (esc "n")
    else if n =? 13 then Some (esc "r")
    else if n =? 9 then Some (esc "t")
    else None
  else Some (String c EmptyString).

Fixpoint escape (str : string) : option string :=
  match str with
  | EmptyString => Some EmptyString
  | String c r =>
      match escape_char c, escape r with
      | Some x, Some y => Some (x +:+ y)
      | _, _ => None
      end
  end.

Definition writeString (str : string) (e : t) : option t :=
  body ← escape str;
  Some (write dquote (write body (write dquote e))).

Definition writeKey (str : option string) (e : t) : option t :=
  let e1 :=
    match isFirstKey e with
    | true :: st => mk (false :: st) (result e)
    | _ => write "," e
    end in
  match str with
  | Some (String c r) => e2 ← writeString (String c r) e1; Some (write ":" e2)
  | _ => Some e1
  end.

Definition setString (name : option string) (value : string) (e : t) : option t :=
  e1 ← writeKey name e;
  writeString value e1.

Definition pushObject (name : option string) (e : t) : option t :=
  e1 ← writeKey name e;
  let e2 := write "{" e1 in
  Some (mk (true :: isFirstKey e2) (result e2)).

Definition popObject (e : t) : t :=
  let e1 := write "}" e in
  mk (tail (isFirstKey e1)) (result e1).

Definition toString (e : t) : string :=
  fold_right String.append EmptyString (result e).

Definition serialize (e : t) : M Uint8Array :=
  new_Uint8Array (list_byte_of_string (toString e)).

(** A failed assertion inside the encoder aborts the module. *)
Definition lift {A} (o : option A) : M A :=
  match o with
  | Some a => mret a
  | None => unreachable
  end.

End JSONEncoder.

(** ** [./env]: the host *)

(** The two imports. The host sees, and may change, the guest's memory; it
    returns an [i32] from [canonicalize_address]. *)
Record HostEnv := mkHostEnv {
  env_log : N → gmap N cell → gmap N cell;
  env_canonicalize_address : N → N → gmap N cell → gmap N cell * Z
}.

(** ** [cosmwasm.ts] *)

Section Guest.
Variable env : HostEnv.
Variable stale : N → byte.

Definition allocate (size : N) : M N :=
  dataPtr ← __alloc stale size;
  __retain dataPtr;;
  region ← new_Region {| offset := dataPtr; len := size |};
  let regionPtr := region in
  __retain regionPtr;;
  release_local region;;
  mret regionPtr.

Definition deallocate (regionPtr : N) : M unit :=
  region ← load_Region regionPtr;
  let dataPtr := offset region in
  __release regionPtr;;
  __release dataPtr.

Definition readRegion (regionPtr : N) : M Uint8Array :=
  region ← load_Region regionPtr;
  Uint8Array_wrap (offset region) 0 (as_i32 (len region)).

Definition releaseOwnership (data : Uint8Array) : M N :=
  let dataPtr := getDataPtr data in
  region ← new_Region {| offset := dataPtr; len := byteLength data |};
  let regionPtr := region in
  __retain dataPtr;;
  __retain regionPtr;;
  release_local region;;
  mret regionPtr.

(** Nothing but the local [region] holds the record, so it is freed when
    the function returns. *)
Definition keepOwnership (data : Uint8Array) : M N :=
  let dataPtr := getDataPtr data in
  region ← new_Region {| offset := dataPtr; len := byteLength data |};
  let regionPtr := region in
  release_local region;;
  mret regionPtr.

Definition takeOwnership (regionPtr : N) : M Uint8Array :=
  out ← readRegion regionPtr;
  deallocate regionPtr;;
  mret out.

(** A call of an import: the host runs on the guest's memory. *)
Definition call_env_log (regionPtr : N) : M unit := λ s,
  Ret () (set_heap (env_log env regionPtr (heap s)) s).

Definition call_env_canonicalize_address (inputPtr outputPtr : N) : M Z := λ s,
  let r := env_canonicalize_address env inputPtr outputPtr (heap s) in
  Ret (snd r) (set_heap (fst r) s).

Definition log (text : string) : M unit :=
  data ← Encoding.toUtf8 text;
  regionPtr ← keepOwnership data;
  call_env_log regionPtr;;
  drop_array data.

Definition canonicalize (human : string) : M Uint8Array :=
  humanEncoded ← Encoding.toUtf8 human;
  resultPtr ← allocate 50;
  inputPtr ← keepOwnership humanEncoded;
  returnCode ← call_env_canonicalize_address inputPtr resultPtr;
  if (returnCode <? 0)%Z then
    throw (new_Error ("Call to env.canonicalize_address failed with return code "
                      +:+ i32_toString returnCode))
  else
    canonical ← readRegion resultPtr;
    deallocate resultPtr;;
    drop_array humanEncoded;;
    mret canonical.

(** The local [msg] of [logAndCrash]. *)
Definition logAndCrash_msg (message fileName : option string)
    (lineNumber columnNumber : N) : string :=
  "Aborted with message '" +:+
  or_string message "unset" +:+
  " (in '" +:+
  or_string fileName "unset" +:+
  "', line " +:+
  u32_toString lineNumber +:+
  ", column " +:+
  u32_toString columnNumber +:+
  ")".

Definition logAndCrash (message fileName : option string)
    (lineNumber columnNumber : N) : M unit :=
  let msg := logAndCrash_msg message fileName lineNumber columnNumber in
  log msg;;
  unreachable.

Definition wrapOk (data : Uint8Array) : M Uint8Array :=
  let encoder := JSONEncoder.new in
  encoder ← JSONEncoder.lift (JSONEncoder.pushObject None encoder);
  bytes ← read_bytes data;
  encoder ← JSONEncoder.lift (JSONEncoder.setString (Some "ok") (Base64.encode bytes) encoder);
  let encoder := JSONEncoder.popObject encoder in
  JSONEncoder.serialize encoder.

End Guest.

(** ** Arrays in memory *)

(** [b] shows the bytes [bs] from the first byte of a live buffer, which is
    what [readRegion] expects of the address stored in a Region; its
    [byteLength] is an [i32]. *)
Definition is_array (h : gmap N cell) (b : Uint8Array) (bs : list byte) : Prop :=
  view_bytes h b = Some bs ∧ byteOffset b = 0 ∧ byteLength b < 2 ^ 31.

(** ** Host stubs and a start state *)

Definition empty_state : state := mkState ∅ [].

Definition zeroed : N → byte := λ _, x00%byte.

(** What a host does to the output Region at [outputPtr]: it overwrites the
    front of the buffer the Region points to with [w], and either leaves the
    Region's [len] alone or stores a new one. *)
Definition host_store (outputPtr : N) (w : list byte) (newLen : option N)
    (h : gmap N cell) : gmap N cell :=
  match h !! outputPtr with
  | Some (mkCell (RegionObj r) n) =>
      match h !! offset r with
      | Some (mkCell (ArrayBuffer d) k) =>
          let h1 := <[offset r := mkCell (ArrayBuffer (w ++ drop (List.length w) d)) k]> h in
          match newLen with
          | Some l => <[outputPtr := mkCell (RegionObj (mkRegion (offset r) l)) n]> h1
          | None => h1
          end
      | _ => h
      end
  | _ => h
  end.

(** A host whose [canonicalize_address] writes [w] and returns [code]. *)
Definition stub_host (w : list byte) (newLen : option N) (code : Z) : HostEnv :=
  mkHostEnv (λ _ h, h) (λ _ outputPtr h, (host_store outputPtr w newLen h, code)).

(** A host whose [canonicalize_address] touches nothing and returns [code]. *)
Definition failing_host (code : Z) : HostEnv :=
  mkHostEnv (λ _ h, h) (λ _ _ h, (h, code)).

(** The statements of [canonicalize] up to the host call: the encoded
    input, the output Region, the input Region. *)
Definition canonicalize_setup (stale : N → byte) (human : string) : M (N * N) :=
  humanEncoded ← Encoding.toUtf8 human;
  resultPtr ← allocate stale 50;
  inputPtr ← keepOwnership humanEncoded;
  mret (inputPtr, resultPtr).

(** What [canonicalize] does once it has the two pointers: the host call
    and everything after it. *)
Definition canonicalize_rest (env : HostEnv) (humanEncoded : Uint8Array)
    (inputPtr resultPtr : N) : M Uint8Array :=
  returnCode ← call_env_canonicalize_address env inputPtr resultPtr;
  if (returnCode <? 0)%Z then
    throw (new_Error ("Call to env.canonicalize_address failed with return code "
                      +:+ i32_toString returnCode))
  else
    canonical ← readRegion resultPtr;
    deallocate resultPtr;;
    drop_array humanEncoded;;
    mret canonical.

(** The array [Encoding.toUtf8] makes for [text] in state [s]. *)
Definition utf8_array (text : string) (s : state) : Uint8Array :=
  mkUint8Array (fresh_ptr (heap s)) 0 (N.of_nat (List.length (list_byte_of_string text))).

(** What the host reads through a Region pointer. *)
Definition region_bytes (h : gmap N cell) (regionPtr : N) : option (list byte) :=
  match h !! regionPtr with
  | Some (mkCell (RegionObj r) _) => view_bytes h (mkUint8Array (offset r) 0 (len r))
  | _ => None
  end.

(** Characters [writeString] copies unchanged. *)
Definition plain (c : ascii) : bool :=
  let n := N_of_ascii c in
  negb (n =? 34) && negb (n =? 92) && negb (n <? 32).

Fixpoint all_plain (str : string) : bool :=
  match str with
  | EmptyString => true
  | String c r => plain c && all_plain r
  end.

(** The text [{"ok":"<value>"}]. *)
Definition ok_envelope (value : string) : string :=
  "{" +:+ dquote +:+ "ok" +:+ dquote +:+ ":" +:+ dquote +:+ value +:+ dquote +:+ "}".

(** The bytes of the text "hi" in an array of their own. *)
Definition hi_bytes : list byte := [x68; x69]%byte.
Definition hi_state : state := mkState {[ 1 := mkCell (ArrayBuffer hi_bytes) 1 ]} [].
Definition hi_array : Uint8Array := mkUint8Array 1 0 2.


(** A Region record at address 2 over the two-byte buffer at address 1,
    with a given length field. *)
Definition region_state (k : N) : state :=
  mkState (<[2 := mkCell (RegionObj (mkRegion 1 k)) 1]>
             {[ 1 := mkCell (ArrayBuffer hi_bytes) 1 ]}) [].

(** * Properties *)

(** ** The allocator *)

Lemma fold_max_ge (h : gmap N cell) (k : N) (c : cell) :
  h !! k = Some c → k ≤ map_fold (λ k _ acc, N.max k acc) 0 h.
Proof.
  revert k c.
  apply (map_fold_weak_ind (λ r (m : gmap N cell), ∀ k c, m !! k = Some c → k ≤ r)).
  - intros k c H. rewrite lookup_empty in H. discriminate.
  - intros i x m r Hi IH k c H.
    destruct (decide (i = k)) as [->|Hne].
    + lia.
    + rewrite lookup_insert_ne in H by done. specialize (IH k c H). lia.
Qed.

Lemma fresh_ptr_None (h : gmap N cell) : h !! fresh_ptr h = None.
Proof.
  destruct (h !! fresh_ptr h) as [c|] eqn:E; [|done].
  apply fold_max_ge in E. unfold fresh_ptr in E. lia.
Qed.

Lemma fresh_ptr_insert_ne (h : gmap N cell) p c : fresh_ptr (<[p := c]> h) ≠ p.
Proof.
  intros E. pose proof (fresh_ptr_None (<[p := c]> h)) as H.
  rewrite E, lookup_insert_eq in H. discriminate.
Qed.

Lemma fresh_ptr_live_ne (h : gmap N cell) p : is_Some (h !! p) → fresh_ptr h ≠ p.
Proof.
  intros [c Hc] E. rewrite <- E, fresh_ptr_None in Hc. discriminate.
Qed.

(** ** Running the primitives *)

Lemma bind_Ret {A B} (m : M A) (k : A → M B) s a s' :
  m s = Ret a s' → (m ≫= k) s = k a s'.
Proof. intros H. unfold mbind, M_bind. by rewrite H. Qed.

Lemma retain_run p s c :
  heap s !! p = Some c →
  __retain p s
  = Ret () (log_call (Retain p) (set_heap (<[p := mkCell (obj c) (S (rc c))]> (heap s)) s)).
Proof. intros H. unfold __retain. by rewrite H. Qed.

Lemma release_last p s o :
  heap s !! p = Some (mkCell o 1) →
  __release p s = Ret () (log_call (Release p) (set_heap (delete p (heap s)) s)).
Proof. intros H. unfold __release. by rewrite H. Qed.

Lemma release_shared p s o n :
  heap s !! p = Some (mkCell o (S (S n))) →
  __release p s
  = Ret () (log_call (Release p) (set_heap (<[p := mkCell o (S n)]> (heap s)) s)).
Proof. intros H. unfold __release. by rewrite H. Qed.

Lemma load_Region_run p s r n :
  heap s !! p = Some (mkCell (RegionObj r) n) → load_Region p s = Ret r s.
Proof. intros H. unfold load_Region. by rewrite H. Qed.

Lemma stale_bytes_length stale p n :
  List.length (stale_bytes stale p n) = N.to_nat n.
Proof. unfold stale_bytes. by rewrite length_map, length_seq. Qed.

Ltac norm := cbv [set_heap log_call heap rc_log obj rc mret M_ret offset len].

Lemma release_local_last p h l o :
  h !! p = Some (mkCell o 1) →
  release_local p (mkState h l) = Ret () (mkState (delete p h) l).
Proof. intros H. unfold release_local. norm. by rewrite H. Qed.

Lemma release_local_shared p h l o n :
  h !! p = Some (mkCell o (S (S n))) →
  release_local p (mkState h l) = Ret () (mkState (<[p := mkCell o (S n)]> h) l).
Proof. intros H. unfold release_local. norm. by rewrite H. Qed.

Lemma new_Region_run r h l :
  new_Region r (mkState h l)
  = Ret (fresh_ptr h) (mkState (<[fresh_ptr h := mkCell (RegionObj r) 1]> h) l).
Proof. reflexivity. Qed.

Lemma alloc_run stale n h l :
  n < BLOCK_MAXSIZE →
  __alloc stale n (mkState h l)
  = Ret (fresh_ptr h)
        (mkState (<[fresh_ptr h := mkCell (ArrayBuffer (stale_bytes stale (fresh_ptr h) n)) 0]> h) l).
Proof.
  intros Hn. unfold __alloc. by destruct (N.leb_spec BLOCK_MAXSIZE n); [lia|].
Qed.

Lemma alloc_too_large stale n s :
  BLOCK_MAXSIZE ≤ n →
  __alloc stale n s = Throw (new_Error "allocation too large") s.
Proof.
  intros Hn. unfold __alloc. by destruct (N.leb_spec BLOCK_MAXSIZE n); [|lia].
Qed.

(** What [allocate] leaves behind: two new blocks, each retained once. *)
Lemma allocate_run stale n s :
  n < BLOCK_MAXSIZE →
  let dataPtr := fresh_ptr (heap s) in
  let h1 := <[dataPtr := mkCell (ArrayBuffer (stale_bytes stale dataPtr n)) 1]> (heap s) in
  let regionPtr := fresh_ptr h1 in
  allocate stale n s
  = Ret regionPtr
      (mkState (<[regionPtr := mkCell (RegionObj (mkRegion dataPtr n)) 1]> h1)
               (rc_log s ++ [Retain dataPtr; Retain regionPtr])).
Proof.
  intros Hn dataPtr h1 regionPtr. destruct s as [h l]. cbn [heap] in *.
  unfold allocate.
  erewrite bind_Ret by (by apply alloc_run).
  erewrite bind_Ret by (apply retain_run; norm; apply lookup_insert_eq).
  norm. rewrite insert_insert_eq.
  erewrite bind_Ret by apply new_Region_run.
  erewrite bind_Ret by (apply retain_run; norm; apply lookup_insert_eq).
  norm. rewrite insert_insert_eq.
  erewrite bind_Ret by (eapply release_local_shared; apply lookup_insert_eq).
  norm. rewrite insert_insert_eq, <- app_assoc. reflexivity.
Qed.

(** [deallocate] on a Region record held once, whose buffer is held once. *)
Lemma deallocate_run_last regionPtr s r o :
  regionPtr ≠ offset r →
  heap s !! regionPtr = Some (mkCell (RegionObj r) 1) →
  heap s !! offset r = Some (mkCell o 1) →
  deallocate regionPtr s
  = Ret () (mkState (delete (offset r) (delete regionPtr (heap s)))
                    (rc_log s ++ [Release regionPtr; Release (offset r)])).
Proof.
  intros Hne Hr Hd. destruct s as [h l]. cbn [heap rc_log] in *.
  unfold deallocate.
  erewrite bind_Ret by (eapply load_Region_run; norm; exact Hr).
  erewrite bind_Ret by (eapply release_last; norm; exact Hr).
  erewrite release_last by (norm; rewrite lookup_delete_ne by done; exact Hd).
  norm. by rewrite <- app_assoc.
Qed.

(** [deallocate] on a Region record held once, whose buffer has other
    holders too: the record goes, the buffer stays. *)
Lemma deallocate_run_shared regionPtr s r o n :
  regionPtr ≠ offset r →
  heap s !! regionPtr = Some (mkCell (RegionObj r) 1) →
  heap s !! offset r = Some (mkCell o (S (S n))) →
  deallocate regionPtr s
  = Ret () (mkState (<[offset r := mkCell o (S n)]> (delete regionPtr (heap s)))
                    (rc_log s ++ [Release regionPtr; Release (offset r)])).
Proof.
  intros Hne Hr Hd. destruct s as [h l]. cbn [heap rc_log] in *.
  unfold deallocate.
  erewrite bind_Ret by (eapply load_Region_run; norm; exact Hr).
  erewrite bind_Ret by (eapply release_last; norm; exact Hr).
  erewrite release_shared by (norm; rewrite lookup_delete_ne by done; exact Hd).
  norm. by rewrite <- app_assoc.
Qed.

(** C7, as the code has it: for every size [n] the allocator can serve
    ([n < 2^30 - 16]), [allocate n] adds exactly two blocks to the live
    allocations: a buffer of [n] bytes and a Region record whose [offset] and
    [len] describe it, each held once.  One [deallocate] of the result
    releases exactly these two and gives back the heap as it was; a second
    [deallocate] of the same pointer is refused. *)
Theorem allocate_then_deallocate (stale : N → byte) (n : N) (s : state) :
  n < BLOCK_MAXSIZE →
  ∃ regionPtr dataPtr d s1 s2,
    allocate stale n s = Ret regionPtr s1 ∧
    regionPtr ≠ dataPtr ∧
    heap s !! regionPtr = None ∧ heap s !! dataPtr = None ∧
    List.length d = N.to_nat n ∧
    heap s1 = <[regionPtr := mkCell (RegionObj (mkRegion dataPtr n)) 1]>
                (<[dataPtr := mkCell (ArrayBuffer d) 1]> (heap s)) ∧
    dom (heap s1) = {[regionPtr; dataPtr]} ∪ dom (heap s) ∧
    size (heap s1) = S (S (size (heap s))) ∧
    deallocate regionPtr s1 = Ret () s2 ∧
    heap s2 = heap s ∧
    rc_log s2 = rc_log s ++ [Retain dataPtr; Retain regionPtr;
                             Release regionPtr; Release dataPtr] ∧
    deallocate regionPtr s2 = Fault (Dangling regionPtr).
Proof.
  intros Hn.
  pose proof (allocate_run stale n s Hn) as Ha. cbv zeta in Ha.
  set (dataPtr := fresh_ptr (heap s)) in *.
  set (d := stale_bytes stale dataPtr n) in *.
  set (h1 := <[dataPtr := mkCell (ArrayBuffer d) 1]> (heap s)) in *.
  set (regionPtr := fresh_ptr h1) in *.
  assert (heap s !! dataPtr = None) as Hd by apply fresh_ptr_None.
  assert (h1 !! regionPtr = None) as Hr1 by apply fresh_ptr_None.
  assert (regionPtr ≠ dataPtr) as Hne by apply fresh_ptr_insert_ne.
  assert (heap s !! regionPtr = None) as Hr.
  { unfold h1 in Hr1. by rewrite lookup_insert_ne in Hr1. }
  eexists regionPtr, dataPtr, d, _, _.
  split; [exact Ha|].
  split; [exact Hne|]. split; [exact Hr|]. split; [exact Hd|].
  split; [apply stale_bytes_length|].
  split; [reflexivity|].
  split; [cbn [heap]; unfold h1; rewrite !dom_insert_L; by rewrite (assoc_L (∪))|].
  split.
  { cbn [heap]. rewrite map_size_insert_None by exact Hr1.
    unfold h1. by rewrite map_size_insert_None. }
  split.
  { eapply (deallocate_run_last _ _ (mkRegion dataPtr n)).
    - exact Hne.
    - cbn [heap]. apply lookup_insert_eq.
    - cbn [heap offset]. rewrite lookup_insert_ne by done. apply lookup_insert_eq. }
  cbn [heap rc_log offset].
  assert (delete dataPtr (delete regionPtr
            (<[regionPtr := mkCell (RegionObj (mkRegion dataPtr n)) 1]> h1)) = heap s) as Hback.
  { rewrite delete_insert_eq, (delete_id h1 regionPtr) by exact Hr1.
    unfold h1. rewrite delete_insert_eq. by apply delete_id. }
  split; [exact Hback|].
  split; [by rewrite <- app_assoc|].
  unfold deallocate, mbind, M_bind, load_Region. cbn [heap].
  by rewrite Hback, Hr.
Qed.

(** For a size the allocator cannot serve, [allocate] aborts and adds
    nothing. *)
Lemma allocate_too_large stale n s :
  BLOCK_MAXSIZE ≤ n →
  allocate stale n s = Throw (new_Error "allocation too large") s.
Proof.
  intros Hn. unfold allocate, mbind, M_bind. by rewrite alloc_too_large.
Qed.

(** ** Regions and views *)

Lemma view_bytes_Some h a bs :
  view_bytes h a = Some bs →
  ∃ d n, h !! buffer a = Some (mkCell (ArrayBuffer d) n) ∧
         byteOffset a + byteLength a ≤ N.of_nat (List.length d) ∧
         bs = take (N.to_nat (byteLength a)) (drop (N.to_nat (byteOffset a)) d).
Proof.
  unfold view_bytes. intros H.
  destruct (h !! buffer a) as [[[d|r] n]|] eqn:E; try discriminate.
  destruct (N.ltb_spec (N.of_nat (List.length d)) (byteOffset a + byteLength a));
    [discriminate|].
  injection H as <-. by exists d, n.
Qed.

Lemma view_bytes_intro h a d n :
  h !! buffer a = Some (mkCell (ArrayBuffer d) n) →
  byteOffset a + byteLength a ≤ N.of_nat (List.length d) →
  view_bytes h a
  = Some (take (N.to_nat (byteLength a)) (drop (N.to_nat (byteOffset a)) d)).
Proof.
  intros E Hle. unfold view_bytes. rewrite E.
  destruct (N.ltb_spec (N.of_nat (List.length d)) (byteOffset a + byteLength a));
    [lia|done].
Qed.

Lemma as_i32_small n : n < 2 ^ 31 → as_i32 n = Z.of_N n.
Proof.
  intros H. unfold as_i32. by destruct (N.ltb_spec n (2 ^ 31)); [|lia].
Qed.

(** [Uint8Array.wrap(buffer, 0, len)] within the buffer's bounds. *)
Lemma wrap_run p h l d n (k : N) :
  h !! p = Some (mkCell (ArrayBuffer d) n) →
  k < 2 ^ 31 →
  k ≤ N.of_nat (List.length d) →
  Uint8Array_wrap p 0 (as_i32 k) (mkState h l)
  = Ret (mkUint8Array p 0 k) (mkState (<[p := mkCell (ArrayBuffer d) (S n)]> h) l).
Proof.
  intros E Hk Hle. unfold Uint8Array_wrap. norm. rewrite E, as_i32_small by done.
  destruct (N.ltb_spec (N.of_nat (List.length d)) 0); [lia|].
  destruct (Z.ltb_spec (Z.of_N k) 0); [lia|].
  rewrite N2Z.id, N.add_0_l.
  destruct (N.ltb_spec (N.of_nat (List.length d)) k); [lia|done].
Qed.

(** [readRegion] on a Region record describing the front of a live buffer. *)
Lemma readRegion_run regionPtr h l r m d n :
  h !! regionPtr = Some (mkCell (RegionObj r) m) →
  h !! offset r = Some (mkCell (ArrayBuffer d) n) →
  len r < 2 ^ 31 →
  len r ≤ N.of_nat (List.length d) →
  readRegion regionPtr (mkState h l)
  = Ret (mkUint8Array (offset r) 0 (len r))
        (mkState (<[offset r := mkCell (ArrayBuffer d) (S n)]> h) l).
Proof.
  intros Hr Hd Hk Hle. unfold readRegion.
  erewrite bind_Ret by (eapply load_Region_run; norm; exact Hr).
  by apply wrap_run.
Qed.

(** An array from the front of its buffer, unfolded. *)
Lemma is_array_inv h b bs :
  is_array h b bs →
  ∃ d n, h !! buffer b = Some (mkCell (ArrayBuffer d) n) ∧
         byteLength b ≤ N.of_nat (List.length d) ∧
         bs = take (N.to_nat (byteLength b)) d ∧
         getDataPtr b = buffer b ∧
         b = mkUint8Array (buffer b) 0 (byteLength b).
Proof.
  intros (Hv & Ho & Hl). apply view_bytes_Some in Hv as (d & n & E & Hle & ->).
  rewrite Ho in *. exists d, n. repeat split; try done.
  - unfold getDataPtr. rewrite Ho. lia.
  - destruct b as [p o k]. cbn in *. by subst.
Qed.

(** [keepOwnership] gives back the state it was called in: the record it
    made is already freed, and the pointer it returns is the address where
    the record was. *)
Lemma keepOwnership_run b h l :
  keepOwnership b (mkState h l) = Ret (fresh_ptr h) (mkState h l).
Proof.
  unfold keepOwnership.
  erewrite bind_Ret by apply new_Region_run.
  erewrite bind_Ret by (eapply release_local_last; apply lookup_insert_eq).
  norm. rewrite delete_insert_eq, delete_id by apply fresh_ptr_None. reflexivity.
Qed.

(** What [releaseOwnership] does to the state. *)
Lemma releaseOwnership_run b h l d n :
  byteOffset b = 0 →
  h !! buffer b = Some (mkCell (ArrayBuffer d) n) →
  let regionPtr := fresh_ptr h in
  releaseOwnership b (mkState h l)
  = Ret regionPtr
      (mkState (<[regionPtr := mkCell (RegionObj (mkRegion (buffer b) (byteLength b))) 1]>
                  (<[buffer b := mkCell (ArrayBuffer d) (S n)]> h))
               (l ++ [Retain (buffer b); Retain regionPtr])).
Proof.
  intros Ho E regionPtr.
  assert (regionPtr ≠ buffer b) as Hne by (apply fresh_ptr_live_ne; by rewrite E).
  assert (getDataPtr b = buffer b) as Hp by (unfold getDataPtr; rewrite Ho; lia).
  unfold releaseOwnership. rewrite Hp.
  erewrite bind_Ret by apply new_Region_run.
  fold regionPtr.
  erewrite bind_Ret
    by (apply retain_run; norm; rewrite lookup_insert_ne by done; exact E).
  norm.
  erewrite bind_Ret
    by (apply retain_run; norm; rewrite lookup_insert_ne by done; apply lookup_insert_eq).
  norm.
  erewrite bind_Ret.
  2:{ eapply release_local_shared. apply lookup_insert_eq. }
  norm. rewrite <- app_assoc. cbn [app]. f_equal. f_equal.
  rewrite insert_insert_eq.
  rewrite (insert_insert_ne _ (buffer b) regionPtr) by done.
  by rewrite insert_insert_eq.
Qed.

(** C5, evaluated on the code: for every array [b], the pointer that
    [keepOwnership b] returns refers to a record that is already freed (only
    the local held it), so [readRegion(keepOwnership(b))] does not yield the
    bytes of [b]: it reads a block that is no longer allocated. *)
Theorem readRegion_keepOwnership_dangles (b : Uint8Array) (s : state) :
  ∃ regionPtr,
    keepOwnership b s = Ret regionPtr s ∧
    heap s !! regionPtr = None ∧
    (regionPtr ← keepOwnership b; readRegion regionPtr) s = Fault (Dangling regionPtr) ∧
    (∀ out s', (regionPtr ← keepOwnership b; readRegion regionPtr) s ≠ Ret out s').
Proof.
  destruct s as [h l]. exists (fresh_ptr h).
  pose proof (fresh_ptr_None h) as Hf.
  assert ((regionPtr ← keepOwnership b; readRegion regionPtr) (mkState h l)
          = Fault (Dangling (fresh_ptr h))) as Hrun.
  { erewrite bind_Ret by apply keepOwnership_run.
    unfold readRegion, mbind, M_bind, load_Region. norm. by rewrite Hf. }
  split; [apply keepOwnership_run|]. split; [exact Hf|]. split; [exact Hrun|].
  intros out s'. rewrite Hrun. discriminate.
Qed.


(** ** [canonicalize] *)

(** The state in which [canonicalize] calls the host: the encoded address,
    the output buffer and the output Region record are three new blocks; the
    input pointer is where the input Region record was before
    [keepOwnership] returned. *)
Lemma canonicalize_setup_run stale human h l :
  let inBuf := fresh_ptr h in
  let h1 := <[inBuf := mkCell (ArrayBuffer (list_byte_of_string human)) 1]> h in
  let dataPtr := fresh_ptr h1 in
  let h2 := <[dataPtr := mkCell (ArrayBuffer (stale_bytes stale dataPtr 50)) 1]> h1 in
  let outP := fresh_ptr h2 in
  let h3 := <[outP := mkCell (RegionObj (mkRegion dataPtr 50)) 1]> h2 in
  let inP := fresh_ptr h3 in
  canonicalize_setup stale human (mkState h l)
  = Ret (inP, outP) (mkState h3 (l ++ [Retain dataPtr; Retain outP])).
Proof.
  intros. unfold canonicalize_setup.
  erewrite bind_Ret by (unfold Encoding.toUtf8, new_Uint8Array; norm; reflexivity).
  erewrite bind_Ret by (apply allocate_run; reflexivity).
  erewrite bind_Ret by apply keepOwnership_run.
  reflexivity.
Qed.

Lemma canonicalize_setup_total stale human s :
  ∃ inP outP s1, canonicalize_setup stale human s = Ret (inP, outP) s1.
Proof.
  destruct s as [h l]. eexists _, _, _. apply canonicalize_setup_run.
Qed.

(** The output Region at the host call: a record, held once, describing a
    50-byte buffer, held once; both are new. *)
Lemma canonicalize_setup_output stale human s inP outP s1 :
  canonicalize_setup stale human s = Ret (inP, outP) s1 →
  ∃ dataPtr d,
    heap s1 !! outP = Some (mkCell (RegionObj (mkRegion dataPtr 50)) 1) ∧
    heap s1 !! dataPtr = Some (mkCell (ArrayBuffer d) 1) ∧
    List.length d = 50%nat ∧
    heap s !! outP = None ∧ heap s !! dataPtr = None ∧
    outP ≠ dataPtr ∧
    rc_log s1 = rc_log s ++ [Retain dataPtr; Retain outP].
Proof.
  destruct s as [h l]. rewrite canonicalize_setup_run. cbv zeta.
  set (inBuf := fresh_ptr h).
  set (h1 := <[inBuf := _]> h).
  set (dataPtr := fresh_ptr h1).
  set (h2 := <[dataPtr := _]> h1).
  set (outP' := fresh_ptr h2).
  intros [= <- <- <-]. norm.
  assert (outP' ≠ dataPtr) as N2 by apply fresh_ptr_insert_ne.
  assert (dataPtr ≠ inBuf) as N3 by apply fresh_ptr_insert_ne.
  assert (h2 !! outP' = None) as F2 by apply fresh_ptr_None.
  assert (h1 !! dataPtr = None) as F3 by apply fresh_ptr_None.
  assert (outP' ≠ inBuf) as N5.
  { intros E. rewrite E in F2. unfold h2 in F2.
    rewrite lookup_insert_ne in F2 by done. unfold h1 in F2.
    by rewrite lookup_insert_eq in F2. }
  exists dataPtr, (stale_bytes stale dataPtr 50).
  split. { apply lookup_insert_eq. }
  split. { rewrite lookup_insert_ne by done. apply lookup_insert_eq. }
  split. { by rewrite stale_bytes_length. }
  split. { unfold h2 in F2. rewrite lookup_insert_ne in F2 by done.
           unfold h1 in F2. by rewrite lookup_insert_ne in F2. }
  split. { unfold h1 in F3. by rewrite lookup_insert_ne in F3. }
  done.
Qed.

(** The input side at the host call: the encoded address sits in a new
    buffer held by the local [humanEncoded]; nothing is allocated at the
    input pointer; what was in memory before is still there. *)
Lemma canonicalize_setup_input stale human s inP outP s1 :
  canonicalize_setup stale human s = Ret (inP, outP) s1 →
  let inBuf := fresh_ptr (heap s) in
  heap s1 !! inBuf = Some (mkCell (ArrayBuffer (list_byte_of_string human)) 1) ∧
  heap s !! inBuf = None ∧
  heap s1 !! inP = None ∧
  inBuf ≠ outP ∧
  (∀ dataPtr c, heap s1 !! outP = Some (mkCell (RegionObj (mkRegion dataPtr 50)) c) →
                inBuf ≠ dataPtr ∧
                (∀ p, p ≠ inBuf → p ≠ outP → p ≠ dataPtr → heap s1 !! p = heap s !! p)) ∧
  heap s ⊆ heap s1.
Proof.
  destruct s as [h l]. rewrite canonicalize_setup_run. cbv zeta. cbn [heap].
  set (inBuf := fresh_ptr h).
  set (h1 := <[inBuf := _]> h).
  set (dataPtr := fresh_ptr h1).
  set (h2 := <[dataPtr := _]> h1).
  set (outP' := fresh_ptr h2).
  set (h3 := <[outP' := _]> h2).
  intros [= <- <- <-]. cbn [heap].
  assert (outP' ≠ dataPtr) as N2 by apply fresh_ptr_insert_ne.
  assert (dataPtr ≠ inBuf) as N3 by apply fresh_ptr_insert_ne.
  assert (h2 !! outP' = None) as F2 by apply fresh_ptr_None.
  assert (h1 !! dataPtr = None) as F3 by apply fresh_ptr_None.
  assert (h !! inBuf = None) as F4 by apply fresh_ptr_None.
  assert (outP' ≠ inBuf) as N5.
  { intros E. rewrite E in F2. unfold h2 in F2.
    rewrite lookup_insert_ne in F2 by done. unfold h1 in F2.
    by rewrite lookup_insert_eq in F2. }
  split.
  { unfold h3. rewrite lookup_insert_ne by done. unfold h2.
    rewrite lookup_insert_ne by done. apply lookup_insert_eq. }
  split; [exact F4|].
  split; [apply fresh_ptr_None|].
  split; [done|].
  split.
  { intros dataPtr' c Hr. unfold h3 in Hr. rewrite lookup_insert_eq in Hr.
    injection Hr as <- _. split; [done|].
    intros p P1 P2 P3. unfold h3, h2, h1. by rewrite !lookup_insert_ne. }
  etrans; [apply (insert_subseteq h inBuf), F4|].
  etrans; [apply (insert_subseteq h1 dataPtr), F3|].
  apply (insert_subseteq h2 outP'), F2.
Qed.

(** [canonicalize] is its setup, then the host call and what follows it. *)
Lemma canonicalize_split env stale human s inP outP s1 :
  canonicalize_setup stale human s = Ret (inP, outP) s1 →
  canonicalize env stale human s
  = canonicalize_rest env (utf8_array human s) inP outP s1.
Proof.
  unfold canonicalize, canonicalize_setup, canonicalize_rest.
  assert (Encoding.toUtf8 human s = Ret (utf8_array human s)
            (set_heap (<[fresh_ptr (heap s) :=
                           mkCell (ArrayBuffer (list_byte_of_string human)) 1]> (heap s)) s))
    as Hu by reflexivity.
  erewrite !(bind_Ret (Encoding.toUtf8 human)) by exact Hu.
  unfold mbind, M_bind.
  destruct (allocate stale 50 _) as [r sr| | |]; try discriminate.
  destruct (keepOwnership _ sr) as [i si| | |]; try discriminate.
  unfold mret, M_ret. by intros [= <- <- <-].
Qed.

(** The failure path, in full. *)
Lemma canonicalize_negative env stale human s inP outP s1 h2 code :
  canonicalize_setup stale human s = Ret (inP, outP) s1 →
  env_canonicalize_address env inP outP (heap s1) = (h2, code) →
  (code < 0)%Z →
  canonicalize env stale human s
  = Throw (new_Error ("Call to env.canonicalize_address failed with return code "
                      +:+ i32_toString code))
          (mkState h2 (rc_log s1)).
Proof.
  intros Hs Hh Hc. rewrite (canonicalize_split _ _ _ _ _ _ _ Hs).
  unfold canonicalize_rest, mbind, M_bind, call_env_canonicalize_address.
  rewrite Hh. norm.
  cbn [fst snd]. by destruct (Z.ltb_spec code 0); [|lia].
Qed.

(** C2, as the code has it: whenever the host's [canonicalize_address]
    returns a negative code, [canonicalize] returns no bytes; it throws a
    plain [Error] whose message is the fixed text followed by the decimal
    form of the host's return code. *)
Theorem canonicalize_throws_on_negative_code (env : HostEnv) (stale : N → byte)
    (human : string) (s : state) inP outP s1 h2 code :
  canonicalize_setup stale human s = Ret (inP, outP) s1 →
  env_canonicalize_address env inP outP (heap s1) = (h2, code) →
  (code < 0)%Z →
  ∃ e s',
    canonicalize env stale human s = Throw e s' ∧
    name e = "Error" ∧
    message e = "Call to env.canonicalize_address failed with return code "
                +:+ i32_toString code ∧
    (∀ out s'', canonicalize env stale human s ≠ Ret out s'').
Proof.
  intros Hs Hh Hc. eexists _, _.
  rewrite (canonicalize_negative _ _ _ _ _ _ _ _ _ Hs Hh Hc).
  repeat split; done.
Qed.

(** C3: whenever the host's [canonicalize_address] returns a negative code,
    [canonicalize] throws without a single [__release]: its state is the one
    the host call left.  The 50-byte output buffer and its Region record,
    both allocated on entry, are still live and still held once wherever
    the host left these two blocks alone. *)
Theorem canonicalize_failure_keeps_output_region (env : HostEnv) (stale : N → byte)
    (human : string) (s : state) inP outP s1 h2 code :
  canonicalize_setup stale human s = Ret (inP, outP) s1 →
  env_canonicalize_address env inP outP (heap s1) = (h2, code) →
  (code < 0)%Z →
  ∃ e s' dataPtr d,
    canonicalize env stale human s = Throw e s' ∧
    heap s' = h2 ∧
    rc_log s' = rc_log s ++ [Retain dataPtr; Retain outP] ∧
    heap s !! outP = None ∧ heap s !! dataPtr = None ∧
    heap s1 !! outP = Some (mkCell (RegionObj (mkRegion dataPtr 50)) 1) ∧
    heap s1 !! dataPtr = Some (mkCell (ArrayBuffer d) 1) ∧
    List.length d = 50%nat ∧
    (h2 !! outP = heap s1 !! outP →
     h2 !! dataPtr = heap s1 !! dataPtr →
     heap s' !! outP = Some (mkCell (RegionObj (mkRegion dataPtr 50)) 1) ∧
     heap s' !! dataPtr = Some (mkCell (ArrayBuffer d) 1) ∧
     {[outP; dataPtr]} ⊆ dom (heap s')).
Proof.
  intros Hs Hh Hc.
  destruct (canonicalize_setup_output _ _ _ _ _ _ Hs)
    as (dataPtr & d & Hr & Hd & Hlen & F1 & F2 & Hne & Hlog).
  eexists _, _, dataPtr, d.
  rewrite (canonicalize_negative _ _ _ _ _ _ _ _ _ Hs Hh Hc). cbn [heap rc_log].
  split; [reflexivity|]. split; [reflexivity|]. split; [exact Hlog|].
  split; [exact F1|]. split; [exact F2|].
  split; [exact Hr|]. split; [exact Hd|]. split; [exact Hlen|].
  intros K1 K2. cbn [heap].
  split; [by rewrite K1|]. split; [by rewrite K2|].
  intros p Hp. apply elem_of_dom.
  apply elem_of_union in Hp as [Hp|Hp]; apply elem_of_singleton in Hp as ->.
  - by rewrite K1, Hr.
  - by rewrite K2, Hd.
Qed.

(** The success path, in full: the output Region record and the encoded
    input are freed, the output buffer stays for the returned view. *)
Lemma canonicalize_nonnegative env stale human s inP outP s1 h2 code dataPtr k d :
  canonicalize_setup stale human s = Ret (inP, outP) s1 →
  env_canonicalize_address env inP outP (heap s1) = (h2, code) →
  (0 ≤ code)%Z →
  heap s1 !! outP = Some (mkCell (RegionObj (mkRegion dataPtr 50)) 1) →
  h2 !! outP = Some (mkCell (RegionObj (mkRegion dataPtr k)) 1) →
  h2 !! dataPtr = Some (mkCell (ArrayBuffer d) 1) →
  h2 !! fresh_ptr (heap s) = heap s1 !! fresh_ptr (heap s) →
  k ≤ N.of_nat (List.length d) →
  k < 2 ^ 31 →
  canonicalize env stale human s
  = Ret (mkUint8Array dataPtr 0 k)
        (mkState (delete (fresh_ptr (heap s)) (delete outP h2))
                 (rc_log s1 ++ [Release outP; Release dataPtr])).
Proof.
  intros Hs Hh Hc Hr1 Hr Hd Hin Hle Hk.
  destruct (canonicalize_setup_input _ _ _ _ _ _ Hs) as (I1 & _ & _ & I2 & I3 & _).
  destruct (I3 _ _ Hr1) as [I4 _].
  set (inBuf := fresh_ptr (heap s)) in *.
  assert (outP ≠ dataPtr) as Hne by (intros E; rewrite <- E, Hr in Hd; discriminate).
  rewrite (canonicalize_split _ _ _ _ _ _ _ Hs). unfold canonicalize_rest.
  destruct s1 as [h1 l1]. cbn [heap rc_log] in *.
  erewrite bind_Ret by (unfold call_env_canonicalize_address; reflexivity).
  norm. rewrite Hh. cbn [fst snd].
  destruct (Z.ltb_spec code 0); [lia|].
  erewrite bind_Ret by (eapply (readRegion_run _ _ _ (mkRegion dataPtr k)); norm; eauto).
  norm.
  erewrite bind_Ret.
  2:{ eapply (deallocate_run_shared _ _ (mkRegion dataPtr k)); norm.
      - exact Hne.
      - rewrite lookup_insert_ne by done. exact Hr.
      - apply lookup_insert_eq. }
  norm.
  erewrite bind_Ret.
  2:{ unfold drop_array, utf8_array. cbn [buffer]. fold inBuf.
      eapply release_local_last.
      rewrite lookup_insert_ne by done. rewrite lookup_delete_ne by done.
      rewrite lookup_insert_ne by done. rewrite Hin. exact I1. }
  norm. f_equal. f_equal. f_equal.
  rewrite delete_insert_ne, insert_insert_eq by done.
  apply insert_id. rewrite lookup_delete_ne by done. exact Hd.
Qed.

(** C6, as the code has it: [canonicalize] allocates a 50-byte output
    Region on entry.  When the host returns a non-negative code, has written
    to the output Region only, and has left in its record the length [k],
    within the buffer, [canonicalize] returns exactly the first [k] bytes of
    the output buffer, whatever number of bytes the host wrote, and it
    deallocates the output Region before returning. *)
Theorem canonicalize_returns_region_len_bytes (env : HostEnv) (stale : N → byte)
    (human : string) (s : state) inP outP s1 h2 code dataPtr k d :
  canonicalize_setup stale human s = Ret (inP, outP) s1 →
  env_canonicalize_address env inP outP (heap s1) = (h2, code) →
  (0 ≤ code)%Z →
  heap s1 !! outP = Some (mkCell (RegionObj (mkRegion dataPtr 50)) 1) →
  h2 !! outP = Some (mkCell (RegionObj (mkRegion dataPtr k)) 1) →
  h2 !! dataPtr = Some (mkCell (ArrayBuffer d) 1) →
  delete dataPtr (delete outP h2) = delete dataPtr (delete outP (heap s1)) →
  k ≤ N.of_nat (List.length d) →
  k < 2 ^ 31 →
  ∃ d0 out s',
    heap s1 !! dataPtr = Some (mkCell (ArrayBuffer d0) 1) ∧
    List.length d0 = 50%nat ∧
    canonicalize env stale human s = Ret out s' ∧
    view_bytes (heap s') out = Some (take (N.to_nat k) d) ∧
    heap s' !! outP = None ∧
    rc_log s' = rc_log s ++ [Retain dataPtr; Retain outP;
                             Release outP; Release dataPtr].
Proof.
  intros Hs Hh Hc Hr1 Hr Hd Hframe Hle Hk.
  destruct (canonicalize_setup_output _ _ _ _ _ _ Hs)
    as (dataPtr0 & d0 & Hr0 & Hd0 & Hlen0 & F1 & F2 & Hne0 & Hlog).
  assert (dataPtr0 = dataPtr) as -> by congruence.
  destruct (canonicalize_setup_input _ _ _ _ _ _ Hs) as (I1 & _ & _ & I2 & I3 & _).
  destruct (I3 _ _ Hr1) as [I4 _].
  assert (h2 !! fresh_ptr (heap s) = heap s1 !! fresh_ptr (heap s)) as Hin.
  { assert (∀ X : gmap N cell,
              delete dataPtr (delete outP X) !! fresh_ptr (heap s)
              = X !! fresh_ptr (heap s)) as Hdel
      by (intros X; by rewrite !lookup_delete_ne).
    rewrite <- (Hdel h2), Hframe. apply Hdel. }
  exists d0. eexists _, _.
  split; [exact Hd0|]. split; [exact Hlen0|].
  split; [by eapply canonicalize_nonnegative|].
  cbn [heap rc_log].
  split.
  { erewrite (view_bytes_intro _ (mkUint8Array dataPtr 0 k) d 1).
    - reflexivity.
    - cbn. rewrite !lookup_delete_ne by done. exact Hd.
    - cbn. lia. }
  split; [rewrite lookup_delete_ne by done; apply lookup_delete_eq|].
  rewrite Hlog, <- app_assoc. reflexivity.
Qed.

(** ** [log] and [logAndCrash] *)

(** [log] puts the UTF-8 bytes of the text in a new buffer, calls the host
    with the pointer [keepOwnership] returned, and releases the buffer when
    the host left it in place. *)
Lemma log_run env text h l o :
  let buf := fresh_ptr h in
  let h1 := <[buf := mkCell (ArrayBuffer (list_byte_of_string text)) 1]> h in
  let regionPtr := fresh_ptr h1 in
  env_log env regionPtr h1 !! buf = Some (mkCell o 1) →
  log env text (mkState h l)
  = Ret () (mkState (delete buf (env_log env regionPtr h1)) l).
Proof.
  intros buf h1 regionPtr Hb. unfold log.
  erewrite bind_Ret by (unfold Encoding.toUtf8, new_Uint8Array; norm; reflexivity).
  erewrite bind_Ret by apply keepOwnership_run.
  erewrite bind_Ret by (unfold call_env_log; norm; reflexivity).
  unfold drop_array. cbn [buffer].
  by erewrite release_local_last.
Qed.

(** Whatever [log] does, [logAndCrash] does not return. *)
Lemma logAndCrash_outcome env message fileName lineNumber columnNumber s :
  logAndCrash env message fileName lineNumber columnNumber s
  = match log env (logAndCrash_msg message fileName lineNumber columnNumber) s with
    | Ret _ s1 => Trap s1
    | Throw e s1 => Throw e s1
    | Trap s1 => Trap s1
    | Fault f => Fault f
    end.
Proof. reflexivity. Qed.

(** C1, evaluated on the code: for [logAndCrash("boom", "file.ts", 10, 3)]
    the string passed to [log] has no closing quote after the message, so it
    is not the string with ['boom'] quoted on both sides; with
    [message = null] the text [unset] stands where the message would. *)
Theorem logAndCrash_boom_message :
  logAndCrash_msg (Some "boom") (Some "file.ts") 10 3
  = "Aborted with message 'boom (in 'file.ts', line 10, column 3)" ∧
  logAndCrash_msg (Some "boom") (Some "file.ts") 10 3
  ≠ "Aborted with message 'boom' (in 'file.ts', line 10, column 3)" ∧
  (∀ env s,
     logAndCrash env (Some "boom") (Some "file.ts") 10 3 s
     = (log env "Aborted with message 'boom (in 'file.ts', line 10, column 3)";;
        unreachable) s) ∧
  logAndCrash_msg None (Some "file.ts") 10 3
  = "Aborted with message 'unset (in 'file.ts', line 10, column 3)".
Proof.
  split; [reflexivity|]. split; [discriminate|]. split; [reflexivity|reflexivity].
Qed.

(** C9: for every combination of arguments and every host, [logAndCrash]
    never returns: whatever is bound after the call is never run, and as
    soon as its call of [log] comes back the module is terminated.  With a
    host that leaves the diagnostic's buffer in place, the run is: the
    diagnostic's bytes are put in memory, the host's [log] is called, the
    buffer is released, and the module is terminated. *)
Theorem logAndCrash_never_returns (env : HostEnv) (message fileName : option string)
    (lineNumber columnNumber : N) (s : state) :
  (∀ a s'', logAndCrash env message fileName lineNumber columnNumber s ≠ Ret a s'') ∧
  (∀ (B : Type) (k k' : unit → M B),
     (logAndCrash env message fileName lineNumber columnNumber ≫= k) s
     = (logAndCrash env message fileName lineNumber columnNumber ≫= k') s) ∧
  (∀ s1, log env (logAndCrash_msg message fileName lineNumber columnNumber) s = Ret () s1 →
         logAndCrash env message fileName lineNumber columnNumber s = Trap s1) ∧
  (let buf := fresh_ptr (heap s) in
   let h1 := <[buf := mkCell (ArrayBuffer (list_byte_of_string
                 (logAndCrash_msg message fileName lineNumber columnNumber))) 1]> (heap s) in
   let regionPtr := fresh_ptr h1 in
   env_log env regionPtr h1 !! buf = h1 !! buf →
   logAndCrash env message fileName lineNumber columnNumber s
   = Trap (mkState (delete buf (env_log env regionPtr h1)) (rc_log s))).
Proof.
  pose proof (logAndCrash_outcome env message fileName lineNumber columnNumber s) as Ho.
  split.
  { intros a s''. rewrite Ho. by destruct (log _ _ _). }
  split.
  { intros B k k'. unfold mbind, M_bind. rewrite Ho. by destruct (log _ _ _). }
  split.
  { intros s1 Hl. rewrite Ho, Hl. reflexivity. }
  intros buf h1 regionPtr Hb. destruct s as [h l]. cbn [heap rc_log] in *.
  rewrite Ho. erewrite log_run; [reflexivity|].
  fold buf h1 regionPtr. rewrite Hb. unfold h1. apply lookup_insert_eq.
Qed.

Lemma append_inj_l (a x y : string) : a +:+ x = a +:+ y → x = y.
Proof.
  induction a as [|ch a IH]; [done|]. intros H. injection H as H. by apply IH.
Qed.

(** C10, as the code has it: only an absent ([null]) [message] or
    [fileName] is replaced by [unset].  An empty string is kept: the
    diagnostic then has nothing between the quotes, it differs from the one
    for [null], and this is the text whose bytes [logAndCrash] puts in
    memory before it calls the host and terminates. *)
Theorem logAndCrash_empty_string_is_kept (env : HostEnv) (message fileName : option string)
    (lineNumber columnNumber : N) (s : state) :
  logAndCrash_msg (Some EmptyString) fileName lineNumber columnNumber
  = "Aborted with message '" +:+ " (in '" +:+ or_string fileName "unset"
    +:+ "', line " +:+ u32_toString lineNumber
    +:+ ", column " +:+ u32_toString columnNumber +:+ ")" ∧
  logAndCrash_msg message (Some EmptyString) lineNumber columnNumber
  = "Aborted with message '" +:+ or_string message "unset" +:+ " (in '"
    +:+ "', line " +:+ u32_toString lineNumber
    +:+ ", column " +:+ u32_toString columnNumber +:+ ")" ∧
  logAndCrash_msg None None lineNumber columnNumber
  = "Aborted with message '" +:+ "unset" +:+ " (in '" +:+ "unset"
    +:+ "', line " +:+ u32_toString lineNumber
    +:+ ", column " +:+ u32_toString columnNumber +:+ ")" ∧
  logAndCrash_msg (Some EmptyString) fileName lineNumber columnNumber
  ≠ logAndCrash_msg None fileName lineNumber columnNumber ∧
  logAndCrash_msg message (Some EmptyString) lineNumber columnNumber
  ≠ logAndCrash_msg message None lineNumber columnNumber ∧
  (let text := "Aborted with message '" +:+ " (in '"
                 +:+ "', line " +:+ u32_toString lineNumber
                 +:+ ", column " +:+ u32_toString columnNumber +:+ ")" in
   let buf := fresh_ptr (heap s) in
   let h1 := <[buf := mkCell (ArrayBuffer (list_byte_of_string text)) 1]> (heap s) in
   let regionPtr := fresh_ptr h1 in
   env_log env regionPtr h1 !! buf = h1 !! buf →
   logAndCrash env (Some EmptyString) (Some EmptyString) lineNumber columnNumber s
   = Trap (mkState (delete buf (env_log env regionPtr h1)) (rc_log s))).
Proof.
  split; [reflexivity|]. split; [reflexivity|]. split; [reflexivity|].
  split.
  { unfold logAndCrash_msg. intros H. apply append_inj_l in H.
    cbn [or_string] in H. discriminate. }
  split.
  { unfold logAndCrash_msg. intros H.
    apply append_inj_l, append_inj_l, append_inj_l in H.
    cbn [or_string] in H. discriminate. }
  intros text buf h1 regionPtr Hb. destruct s as [h l]. cbn [heap rc_log] in *.
  rewrite logAndCrash_outcome.
  change (logAndCrash_msg (Some EmptyString) (Some EmptyString) lineNumber columnNumber)
    with text.
  erewrite log_run; [reflexivity|].
  fold buf h1 regionPtr. rewrite Hb. unfold h1. apply lookup_insert_eq.
Qed.

(** ** [wrapOk] *)

Lemma all_plain_app a b : all_plain (a +:+ b) = all_plain a && all_plain b.
Proof.
  induction a as [|c a IH]; [done|].
  change (String c a +:+ b) with (String c (a +:+ b)).
  cbn [all_plain]. by rewrite IH, andb_assoc.
Qed.

Lemma escape_plain str : all_plain str = true → JSONEncoder.escape str = Some str.
Proof.
  induction str as [|c r IH]; [done|].
  cbn [all_plain]. intros [Hc Hr]%andb_true_iff.
  cbn [JSONEncoder.escape]. rewrite (IH Hr).
  assert (JSONEncoder.escape_char c = Some (String c EmptyString)) as ->; [|done].
  unfold plain in Hc. unfold JSONEncoder.escape_char.
  apply andb_true_iff in Hc as [[H1 H2]%andb_true_iff H3].
  apply negb_true_iff in H1, H2, H3. cbv zeta in *. by rewrite H1, H2, H3.
Qed.

Lemma digit_plain i : plain (Base64.digit i) = true.
Proof.
  unfold Base64.digit.
  generalize (N.to_nat i). intros n.
  do 64 (destruct n as [|n]; [reflexivity|]).
  reflexivity.
Qed.

Lemma encode_octets_plain l : all_plain (Base64.encode_octets l) = true.
Proof.
  assert (∀ n l, (List.length l ≤ n)%nat → all_plain (Base64.encode_octets l) = true) as H.
  { clear l. induction n as [|n IH]; intros l Hl.
    - destruct l; [done|cbn in Hl; lia].
    - destruct l as [|a [|b [|c rest]]]; [done| | |].
      + cbn [Base64.encode_octets Base64.chars string_of_list_ascii all_plain].
        by rewrite !digit_plain.
      + cbn [Base64.encode_octets Base64.chars string_of_list_ascii all_plain].
        by rewrite !digit_plain.
      + cbn [Base64.encode_octets]. rewrite all_plain_app.
        rewrite IH by (cbn in Hl; lia).
        cbn [Base64.chars string_of_list_ascii all_plain].
        by rewrite !digit_plain. }
  by apply (H (List.length l)).
Qed.

(** Standard test vectors of the encoding. *)
Lemma base64_test_vectors :
  Base64.encode (list_byte_of_string EmptyString) = EmptyString ∧
  Base64.encode (list_byte_of_string "f") = "Zg==" ∧
  Base64.encode (list_byte_of_string "fo") = "Zm8=" ∧
  Base64.encode (list_byte_of_string "foo") = "Zm9v" ∧
  Base64.encode (list_byte_of_string "foob") = "Zm9vYg==" ∧
  Base64.encode (list_byte_of_string "fooba") = "Zm9vYmE=" ∧
  Base64.encode (list_byte_of_string "foobar") = "Zm9vYmFy" ∧
  Base64.encode [xfb; xff; xbf]%byte = "+/+/".
Proof. repeat split. Qed.

(** C8: for every byte sequence [bs] shown by the array [b], [wrapOk b]
    returns a new array with the UTF-8 bytes of the JSON text
    [{"ok":"<base64 of bs>"}], nothing added between its tokens. *)
Theorem wrapOk_envelope (b : Uint8Array) (bs : list byte) (s : state) :
  view_bytes (heap s) b = Some bs →
  ∃ out s',
    wrapOk b s = Ret out s' ∧
    view_bytes (heap s') out
    = Some (list_byte_of_string (ok_envelope (Base64.encode bs))) ∧
    heap s !! buffer out = None ∧
    rc_log s' = rc_log s.
Proof.
  intros Hv. destruct s as [h l]. cbn [heap rc_log] in *.
  unfold wrapOk.
  assert (JSONEncoder.pushObject None JSONEncoder.new
          = Some (JSONEncoder.mk [true; false] ["{"])) as -> by reflexivity.
  erewrite bind_Ret by reflexivity.
  erewrite bind_Ret by (unfold read_bytes; norm; rewrite Hv; reflexivity).
  assert (JSONEncoder.setString (Some "ok") (Base64.encode bs)
            (JSONEncoder.mk [true; false] ["{"])
          = Some (JSONEncoder.mk [false; false]
                    ["{"; dquote; "ok"; dquote; ":"; dquote; Base64.encode bs; dquote])) as ->.
  { unfold JSONEncoder.setString, JSONEncoder.writeKey.
    cbn [JSONEncoder.isFirstKey JSONEncoder.result].
    assert (JSONEncoder.writeString "ok" (JSONEncoder.mk [false; false] ["{"])
            = Some (JSONEncoder.mk [false; false] ["{"; dquote; "ok"; dquote])) as ->
      by reflexivity.
    cbn [mbind option_bind].
    unfold JSONEncoder.writeString.
    rewrite escape_plain by apply encode_octets_plain.
    reflexivity. }
  erewrite bind_Ret by reflexivity.
  unfold JSONEncoder.serialize.
  assert (JSONEncoder.toString
            (JSONEncoder.popObject
               (JSONEncoder.mk [false; false]
                  ["{"; dquote; "ok"; dquote; ":"; dquote; Base64.encode bs; dquote]))
          = ok_envelope (Base64.encode bs)) as -> by reflexivity.
  unfold new_Uint8Array. norm.
  eexists _, _. split; [reflexivity|]. norm.
  split.
  { rewrite (view_bytes_intro _ _
               (list_byte_of_string (ok_envelope (Base64.encode bs))) 1).
    - cbn [byteLength byteOffset]. rewrite Nat2N.id. cbn [N.to_nat drop].
      by rewrite firstn_all.
    - cbn [buffer]. apply lookup_insert_eq.
    - cbn [byteLength byteOffset]. lia. }
  split; [apply fresh_ptr_None|reflexivity].
Qed.

(** ** The properties at concrete inputs *)

(** Three bytes: two blocks come, two blocks go. *)
Lemma allocate_then_deallocate_three :
  ∃ regionPtr s1 s2,
    allocate zeroed 3 empty_state = Ret regionPtr s1 ∧
    size (heap s1) = 2%nat ∧
    deallocate regionPtr s1 = Ret () s2 ∧
    heap s2 = heap empty_state.
Proof.
  destruct (allocate_then_deallocate zeroed 3 empty_state)
    as (regionPtr & dataPtr & d & s1 & s2 & Ha & _ & _ & _ & _ & _ & _ & Hsz & Hd & Hh & _).
  - vm_compute. reflexivity.
  - exists regionPtr, s1, s2. split; [exact Ha|]. split; [exact Hsz|].
    split; [exact Hd|exact Hh].
Defined.

(** A size of [2^30] bytes: [allocate] returns no Region. *)
Lemma allocate_two_to_the_thirty_aborts :
  ¬ ∃ regionPtr s1, allocate zeroed (2 ^ 30) empty_state = Ret regionPtr s1.
Proof.
  intros (regionPtr & s1 & H).
  rewrite allocate_too_large in H by (vm_compute; discriminate). discriminate.
Qed.



(** [wrapOk([0x68, 0x69])] is the text [{"ok":"aGk="}]. *)
Lemma wrapOk_hi :
  ∃ out s',
    wrapOk hi_array hi_state = Ret out s' ∧
    view_bytes (heap s') out
    = Some (list_byte_of_string
              ("{" +:+ dquote +:+ "ok" +:+ dquote +:+ ":" +:+ dquote
               +:+ "aGk=" +:+ dquote +:+ "}")).
Proof.
  destruct (wrapOk_envelope hi_array hi_bytes hi_state)
    as (out & s' & Hrun & Hv & _).
  - vm_compute. reflexivity.
  - exists out, s'. split; [exact Hrun|exact Hv].
Defined.

(** A host returning [-1]: the error is a plain [Error] with the code in
    its message text. *)
Lemma canonicalize_minus_one :
  ∃ e s',
    canonicalize (failing_host (-1)) zeroed "cosmos1" empty_state = Throw e s' ∧
    name e = "Error" ∧
    message e = "Call to env.canonicalize_address failed with return code -1".
Proof.
  edestruct (canonicalize_throws_on_negative_code
               (failing_host (-1)) zeroed "cosmos1" empty_state)
    as (e & s' & Hrun & Hname & Hmsg & _).
  - vm_compute. reflexivity.
  - vm_compute. reflexivity.
  - reflexivity.
  - exists e, s'. split; [exact Hrun|]. split; [exact Hname|exact Hmsg].
Defined.

(** The claim as worded does not hold there: no error of a class named
    [AddressCanonicalizationError] is thrown. *)
Lemma canonicalize_error_is_not_typed :
  ¬ ∃ msg s',
      canonicalize (failing_host (-1)) zeroed "cosmos1" empty_state
      = Throw (mkError "AddressCanonicalizationError" msg) s'.
Proof.
  intros (msg & s' & H). vm_compute in H. congruence.
Qed.

Lemma canonicalize_minus_one_leak :
  ∃ e s' outP dataPtr d,
    canonicalize (failing_host (-1)) zeroed "cosmos1" empty_state = Throw e s' ∧
    heap s' !! outP = Some (mkCell (RegionObj (mkRegion dataPtr 50)) 1) ∧
    heap s' !! dataPtr = Some (mkCell (ArrayBuffer d) 1) ∧
    heap empty_state !! outP = None ∧ heap empty_state !! dataPtr = None.
Proof.
  edestruct (canonicalize_failure_keeps_output_region
               (failing_host (-1)) zeroed "cosmos1" empty_state)
    as (e & s' & dataPtr & d & Hrun & _ & _ & F1 & F2 & _ & _ & _ & Hlive).
  - vm_compute. reflexivity.
  - vm_compute. reflexivity.
  - reflexivity.
  - destruct Hlive as (Hr & Hd & _); [reflexivity|reflexivity|].
    exists e, s', 3, dataPtr, d. repeat split; assumption.
Defined.

(** A host that writes two bytes and stores 2 as the Region's length. *)
Lemma canonicalize_two_bytes_with_len :
  ∃ out s',
    canonicalize (stub_host [x01; x02]%byte (Some 2) 0) zeroed "cosmos1" empty_state
    = Ret out s' ∧
    view_bytes (heap s') out = Some [x01; x02]%byte.
Proof.
  edestruct (canonicalize_returns_region_len_bytes
               (stub_host [x01; x02]%byte (Some 2) 0) zeroed "cosmos1" empty_state)
    as (d0 & out & s' & _ & _ & Hrun & Hv & _).
  - vm_compute. reflexivity.
  - vm_compute. reflexivity.
  - vm_compute. discriminate.
  - vm_compute. reflexivity.
  - vm_compute. reflexivity.
  - vm_compute. reflexivity.
  - vm_compute. reflexivity.
  - vm_compute. discriminate.
  - vm_compute. reflexivity.
  - exists out, s'. split; [exact Hrun|]. exact Hv.
Defined.

(** A host that writes two bytes into the output buffer and returns 0:
    [canonicalize] returns all 50 bytes of the buffer, not those two. *)
Lemma canonicalize_two_bytes_returns_fifty :
  ∃ out s',
    canonicalize (stub_host [x01; x02]%byte None 0) zeroed "cosmos1" empty_state
    = Ret out s' ∧
    view_bytes (heap s') out = Some ([x01; x02]%byte ++ repeat x00%byte 48) ∧
    view_bytes (heap s') out ≠ Some [x01; x02]%byte.
Proof.
  eexists _, _. split; [vm_compute; reflexivity|].
  split; [vm_compute; reflexivity|]. vm_compute. discriminate.
Qed.

(** [logAndCrash("boom", null, 1, 2)] with a host that touches nothing:
    the module is terminated, in the state the call started from. *)
Lemma logAndCrash_boom_traps :
  logAndCrash (failing_host 0) (Some "boom") None 1 2 empty_state = Trap empty_state.
Proof.
  destruct (logAndCrash_never_returns (failing_host 0) (Some "boom") None 1 2 empty_state)
    as (_ & _ & _ & Hrun).
  cbv zeta in Hrun. rewrite Hrun; [|reflexivity].
  vm_compute. reflexivity.
Defined.

(** [logAndCrash("", "", 10, 3)]: nothing between the quotes. *)
Lemma logAndCrash_empty_strings_not_unset :
  logAndCrash_msg (Some EmptyString) (Some EmptyString) 10 3
  = "Aborted with message ' (in '', line 10, column 3)" ∧
  logAndCrash_msg (Some EmptyString) (Some EmptyString) 10 3
  ≠ "Aborted with message 'unset (in 'unset', line 10, column 3)".
Proof. split; [reflexivity|discriminate]. Qed.

Lemma logAndCrash_empty_strings_traps :
  logAndCrash (failing_host 0) (Some EmptyString) (Some EmptyString) 10 3 empty_state
  = Trap empty_state.
Proof.
  destruct (logAndCrash_empty_string_is_kept
              (failing_host 0) None None 10 3 empty_state)
    as (_ & _ & _ & _ & _ & Hrun).
  cbv zeta in Hrun. rewrite Hrun; [|reflexivity].
  vm_compute. reflexivity.
Defined.

(** ** Further properties of the Region protocol *)

(** X1: [readRegion] gives a view, not a copy: the array it returns sits on the
    buffer the Region points to and shows the first [len] bytes of it, also
    when the buffer is longer.  No block is allocated or freed, no
    [__retain] or [__release] is called, and the Region record is left as it
    was. *)
Theorem readRegion_is_a_view (regionPtr : N) (s : state) r m d n :
  heap s !! regionPtr = Some (mkCell (RegionObj r) m) →
  heap s !! offset r = Some (mkCell (ArrayBuffer d) n) →
  len r < 2 ^ 31 →
  len r ≤ N.of_nat (List.length d) →
  ∃ out s',
    readRegion regionPtr s = Ret out s' ∧
    out = mkUint8Array (offset r) 0 (len r) ∧
    view_bytes (heap s') out = Some (take (N.to_nat (len r)) d) ∧
    dom (heap s') = dom (heap s) ∧
    rc_log s' = rc_log s ∧
    heap s' !! regionPtr = Some (mkCell (RegionObj r) m) ∧
    (∀ p, p ≠ offset r → heap s' !! p = heap s !! p).
Proof.
  intros Hr Hd Hk Hle. destruct s as [h l]. cbn [heap rc_log] in *.
  assert (regionPtr ≠ offset r) as Hne by (intros E; rewrite <- E, Hr in Hd; discriminate).
  eexists _, _. split; [by eapply readRegion_run|]. cbn [heap rc_log].
  split; [reflexivity|].
  split.
  { rewrite (view_bytes_intro _ _ d (S n)); cbn [buffer byteOffset byteLength].
    - reflexivity.
    - apply lookup_insert_eq.
    - lia. }
  split; [apply dom_insert_lookup_L; by rewrite Hd|].
  split; [reflexivity|].
  split; [by rewrite lookup_insert_ne|].
  intros p Hp. by rewrite lookup_insert_ne.
Qed.

(** X2: A Region whose length field is larger than the buffer it points to,
    and is not [2^32 - 1], is refused: [readRegion] throws a [RangeError].
    ([2^32 - 1] is [-1] as an [i32], which [Uint8Array.wrap] takes as "up to
    the end of the buffer".) *)
Theorem readRegion_len_beyond_buffer (regionPtr : N) (s : state) r m d n :
  heap s !! regionPtr = Some (mkCell (RegionObj r) m) →
  heap s !! offset r = Some (mkCell (ArrayBuffer d) n) →
  N.of_nat (List.length d) < len r →
  len r < 2 ^ 32 - 1 →
  (∃ s', readRegion regionPtr s = Throw (new_RangeError "Invalid length") s') ∧
  (∀ out s', readRegion regionPtr s ≠ Ret out s').
Proof.
  intros Hr Hd Hlt Hk. destruct s as [h l]. cbn [heap] in *.
  assert (readRegion regionPtr (mkState h l)
          = Throw (new_RangeError "Invalid length") (mkState h l)) as Hrun.
  { unfold readRegion.
    erewrite bind_Ret by (eapply load_Region_run; norm; exact Hr).
    unfold Uint8Array_wrap. cbn [heap]. rewrite Hd.
    destruct (N.ltb_spec (N.of_nat (List.length d)) 0); [lia|].
    unfold as_i32. destruct (N.ltb_spec (len r) (2 ^ 31)).
    - destruct (Z.ltb_spec (Z.of_N (len r)) 0); [lia|].
      rewrite N2Z.id, N.add_0_l.
      by destruct (N.ltb_spec (N.of_nat (List.length d)) (len r)); [|lia].
    - destruct (Z.ltb_spec (Z.of_N (len r) - 2 ^ 32) 0); [|lia].
      by destruct (Z.eqb_spec (Z.of_N (len r) - 2 ^ 32) (-1)); [lia|]. }
  split; [by eexists|]. intros out s'. rewrite Hrun. discriminate.
Qed.

(** The length [2^32 - 1] is the exception: [readRegion] then returns a
    view of the whole buffer. *)
Lemma readRegion_len_minus_one regionPtr h l r m d n :
  h !! regionPtr = Some (mkCell (RegionObj r) m) →
  h !! offset r = Some (mkCell (ArrayBuffer d) n) →
  len r = 2 ^ 32 - 1 →
  readRegion regionPtr (mkState h l)
  = Ret (mkUint8Array (offset r) 0 (N.of_nat (List.length d)))
        (mkState (<[offset r := mkCell (ArrayBuffer d) (S n)]> h) l).
Proof.
  intros Hr Hd Hk. unfold readRegion.
  erewrite bind_Ret by (eapply load_Region_run; norm; exact Hr).
  unfold Uint8Array_wrap. cbn [heap]. rewrite Hd, Hk.
  destruct (N.ltb_spec (N.of_nat (List.length d)) 0); [lia|].
  change (as_i32 (2 ^ 32 - 1)) with (-1)%Z. cbn [Z.ltb Z.eqb Z.compare Pos.eqb].
  by rewrite N.sub_0_r.
Qed.

(** X3: For an array that starts at the first byte of its buffer, the
    Region [releaseOwnership] returns describes the array: whoever gets the
    pointer reads exactly the array's bytes through it.  The record is new
    and held once, the buffer has one holder more, and every other block is
    untouched. *)
Theorem releaseOwnership_describes_the_array (b : Uint8Array) (bs : list byte)
    (s : state) :
  is_array (heap s) b bs →
  ∃ regionPtr s1 d n,
    releaseOwnership b s = Ret regionPtr s1 ∧
    heap s !! regionPtr = None ∧
    region_bytes (heap s1) regionPtr = Some bs ∧
    heap s1 !! regionPtr
    = Some (mkCell (RegionObj (mkRegion (buffer b) (byteLength b))) 1) ∧
    heap s !! buffer b = Some (mkCell (ArrayBuffer d) n) ∧
    heap s1 !! buffer b = Some (mkCell (ArrayBuffer d) (S n)) ∧
    (∀ p, p ≠ regionPtr → p ≠ buffer b → heap s1 !! p = heap s !! p) ∧
    rc_log s1 = rc_log s ++ [Retain (buffer b); Retain regionPtr].
Proof.
  intros Ha. pose proof Ha as (Hv & Ho & Hl).
  apply is_array_inv in Ha as (d & n & E & Hle & Hbs & Hp & Hb).
  destruct s as [h l]. cbn [heap rc_log] in *.
  assert (fresh_ptr h ≠ buffer b) as Hne by (apply fresh_ptr_live_ne; by rewrite E).
  exists (fresh_ptr h). eexists _, d, n.
  split; [by apply releaseOwnership_run|]. cbn [heap rc_log].
  split; [apply fresh_ptr_None|].
  split.
  { unfold region_bytes. rewrite lookup_insert_eq. cbn [offset len].
    rewrite (view_bytes_intro _ _ d (S n)); cbn [buffer byteOffset byteLength].
    - by rewrite Hbs.
    - rewrite lookup_insert_ne by done. apply lookup_insert_eq.
    - lia. }
  split; [apply lookup_insert_eq|].
  split; [exact E|].
  split; [rewrite lookup_insert_ne by done; apply lookup_insert_eq|].
  split; [|reflexivity].
  intros p H1 H2. by rewrite !lookup_insert_ne.
Qed.

(** X4: [keepOwnership] returns a pointer to a record that is already
    freed: nothing but the local [region] held it.  The call leaves the
    state exactly as it found it, no block lives at the returned address,
    and both [readRegion] and [deallocate] on it are refused. *)
Theorem keepOwnership_record_is_freed (b : Uint8Array) (s : state) :
  ∃ regionPtr,
    keepOwnership b s = Ret regionPtr s ∧
    heap s !! regionPtr = None ∧
    region_bytes (heap s) regionPtr = None ∧
    readRegion regionPtr s = Fault (Dangling regionPtr) ∧
    deallocate regionPtr s = Fault (Dangling regionPtr).
Proof.
  destruct s as [h l]. exists (fresh_ptr h).
  pose proof (fresh_ptr_None h) as Hf.
  split; [apply keepOwnership_run|]. cbn [heap]. split; [exact Hf|].
  split; [unfold region_bytes; by rewrite Hf|].
  split.
  - unfold readRegion, mbind, M_bind, load_Region. cbn [heap]. by rewrite Hf.
  - unfold deallocate, mbind, M_bind, load_Region. cbn [heap]. by rewrite Hf.
Qed.

(** X5: [deallocate] undoes [releaseOwnership]: for an array that starts at
    the first byte of its buffer, when that buffer has a holder of its own,
    releasing ownership and then deallocating the Region gives back the heap
    exactly as it was; the buffer is not freed. *)
Theorem releaseOwnership_then_deallocate (b : Uint8Array) (s : state) d n :
  byteOffset b = 0 →
  heap s !! buffer b = Some (mkCell (ArrayBuffer d) (S n)) →
  ∃ regionPtr s1 s2,
    releaseOwnership b s = Ret regionPtr s1 ∧
    deallocate regionPtr s1 = Ret () s2 ∧
    heap s2 = heap s ∧
    rc_log s2 = rc_log s ++ [Retain (buffer b); Retain regionPtr;
                             Release regionPtr; Release (buffer b)].
Proof.
  intros Ho E. destruct s as [h l]. cbn [heap rc_log] in *.
  set (regionPtr := fresh_ptr h).
  assert (h !! regionPtr = None) as Hfresh by apply fresh_ptr_None.
  assert (regionPtr ≠ buffer b) as Hne by (apply fresh_ptr_live_ne; by rewrite E).
  exists regionPtr. eexists _, _.
  split; [by apply releaseOwnership_run|].
  split.
  { eapply (deallocate_run_shared _ _ (mkRegion (buffer b) (byteLength b))); norm.
    - exact Hne.
    - apply lookup_insert_eq.
    - rewrite lookup_insert_ne by done. apply lookup_insert_eq. }
  norm. split.
  - fold regionPtr. rewrite delete_insert_eq.
    rewrite (delete_id _ regionPtr) by (by rewrite lookup_insert_ne).
    rewrite insert_insert_eq. by apply insert_id.
  - by rewrite <- app_assoc.
Qed.

(** X6: [takeOwnership] frees the Region record and nothing else: the reference
    the Region stood for passes to the returned array, so the buffer keeps
    its count, and the heap afterwards is the heap before without the
    record. *)
Theorem takeOwnership_frees_only_the_record (regionPtr : N) (s : state) r d n :
  heap s !! regionPtr = Some (mkCell (RegionObj r) 1) →
  heap s !! offset r = Some (mkCell (ArrayBuffer d) (S n)) →
  len r < 2 ^ 31 →
  len r ≤ N.of_nat (List.length d) →
  ∃ out s',
    takeOwnership regionPtr s = Ret out s' ∧
    out = mkUint8Array (offset r) 0 (len r) ∧
    view_bytes (heap s') out = Some (take (N.to_nat (len r)) d) ∧
    heap s' = delete regionPtr (heap s) ∧
    rc_log s' = rc_log s ++ [Release regionPtr; Release (offset r)].
Proof.
  intros Hr Hd Hk Hle. destruct s as [h l]. cbn [heap rc_log] in *.
  assert (regionPtr ≠ offset r) as Hne by (intros E; rewrite <- E, Hr in Hd; discriminate).
  assert (takeOwnership regionPtr (mkState h l)
          = Ret (mkUint8Array (offset r) 0 (len r))
                (mkState (delete regionPtr h)
                         (l ++ [Release regionPtr; Release (offset r)]))) as Hrun.
  { unfold takeOwnership.
    erewrite bind_Ret by (by eapply readRegion_run).
    erewrite bind_Ret.
    2:{ eapply (deallocate_run_shared _ _ r); norm.
        - exact Hne.
        - rewrite lookup_insert_ne by done. exact Hr.
        - apply lookup_insert_eq. }
    norm. f_equal. f_equal.
    rewrite delete_insert_ne, insert_insert_eq by done.
    apply insert_id. by rewrite lookup_delete_ne. }
  eexists _, _. split; [exact Hrun|]. cbn [heap rc_log].
  split; [reflexivity|]. split; [|done].
  rewrite (view_bytes_intro _ _ d (S n)); cbn [buffer byteOffset byteLength].
  - reflexivity.
  - by rewrite lookup_delete_ne.
  - lia.
Qed.

(** X7: The host-to-guest direction: for a size the allocator can serve
    ([n < 2^30 - 16]), a block obtained from [allocate] and then taken with
    [takeOwnership] becomes an array of exactly [n] bytes; the Region record
    is gone, and of the two blocks only the buffer remains, held once by the
    array. *)
Theorem takeOwnership_after_allocate (stale : N → byte) (n : N) (s : state) :
  n < BLOCK_MAXSIZE →
  ∃ regionPtr dataPtr s1 out s2 d,
    allocate stale n s = Ret regionPtr s1 ∧
    takeOwnership regionPtr s1 = Ret out s2 ∧
    out = mkUint8Array dataPtr 0 n ∧
    view_bytes (heap s2) out = Some d ∧
    List.length d = N.to_nat n ∧
    heap s !! dataPtr = None ∧
    heap s2 = <[dataPtr := mkCell (ArrayBuffer d) 1]> (heap s) ∧
    heap s2 !! regionPtr = None.
Proof.
  intros Hmax.
  assert (n < 2 ^ 31) as Hn by (unfold BLOCK_MAXSIZE in Hmax; lia).
  destruct s as [h l].
  pose proof (allocate_run stale n (mkState h l) Hmax) as Ha. cbv zeta in Ha.
  cbn [heap rc_log] in *.
  set (dataPtr := fresh_ptr h) in *.
  set (d := stale_bytes stale dataPtr n) in *.
  set (h1 := <[dataPtr := mkCell (ArrayBuffer d) 1]> h) in *.
  set (regionPtr := fresh_ptr h1) in *.
  assert (h !! dataPtr = None) as Hd by apply fresh_ptr_None.
  assert (h1 !! regionPtr = None) as Hr1 by apply fresh_ptr_None.
  assert (regionPtr ≠ dataPtr) as Hne by apply fresh_ptr_insert_ne.
  assert (List.length d = N.to_nat n) as Hlen by apply stale_bytes_length.
  exists regionPtr, dataPtr. eexists _, _, _, d.
  split; [exact Ha|].
  assert (takeOwnership regionPtr
            (mkState (<[regionPtr := mkCell (RegionObj (mkRegion dataPtr n)) 1]> h1)
                     (l ++ [Retain dataPtr; Retain regionPtr]))
          = Ret (mkUint8Array dataPtr 0 n)
                (mkState h1 ((l ++ [Retain dataPtr; Retain regionPtr])
                             ++ [Release regionPtr; Release dataPtr]))) as Ht.
  { unfold takeOwnership.
    erewrite bind_Ret.
    2:{ eapply (readRegion_run _ _ _ (mkRegion dataPtr n)); norm.
        - apply lookup_insert_eq.
        - rewrite lookup_insert_ne by done. unfold h1. apply lookup_insert_eq.
        - exact Hn.
        - lia. }
    norm.
    erewrite bind_Ret.
    2:{ eapply (deallocate_run_shared _ _ (mkRegion dataPtr n)); norm.
        - exact Hne.
        - rewrite lookup_insert_ne by done. apply lookup_insert_eq.
        - apply lookup_insert_eq. }
    norm. f_equal. f_equal.
    rewrite delete_insert_ne, insert_insert_eq by done.
    rewrite delete_insert_eq, (delete_id _ regionPtr) by exact Hr1.
    apply insert_id. unfold h1. apply lookup_insert_eq. }
  split; [exact Ht|]. cbn [heap].
  split; [reflexivity|].
  split.
  { rewrite (view_bytes_intro _ _ d 1); cbn [buffer byteOffset byteLength].
    - rewrite <- Hlen. cbn [N.to_nat drop]. by rewrite firstn_all.
    - unfold h1. apply lookup_insert_eq.
    - lia. }
  split; [exact Hlen|]. split; [exact Hd|]. split; [reflexivity|exact Hr1].
Qed.

(** ** Further properties of the host calls *)

(** X8: [log] calls the host with a pointer at which nothing is allocated:
    the Region record [keepOwnership] made is already freed.  At the call,
    memory is what it was plus one buffer with the UTF-8 bytes of the text;
    when the host leaves that buffer in place, [log] releases it and
    returns, so with a host that changes nothing [log] returns in the state
    it was called in.  No explicit [__retain] or [__release] is made. *)
Theorem log_hands_host_a_freed_region (env : HostEnv) (text : string) (s : state) :
  ∃ regionPtr buf h1,
    heap s !! buf = None ∧
    h1 = <[buf := mkCell (ArrayBuffer (list_byte_of_string text)) 1]> (heap s) ∧
    h1 !! regionPtr = None ∧
    region_bytes h1 regionPtr = None ∧
    (env_log env regionPtr h1 !! buf = h1 !! buf →
     log env text s = Ret () (mkState (delete buf (env_log env regionPtr h1)) (rc_log s))) ∧
    (env_log env regionPtr h1 = h1 → log env text s = Ret () s).
Proof.
  destruct s as [h l]. cbn [heap rc_log].
  set (buf := fresh_ptr h).
  set (h1 := <[buf := mkCell (ArrayBuffer (list_byte_of_string text)) 1]> h).
  set (regionPtr := fresh_ptr h1).
  assert (h !! buf = None) as Hb by apply fresh_ptr_None.
  assert (h1 !! regionPtr = None) as Hr by apply fresh_ptr_None.
  assert (h1 !! buf = Some (mkCell (ArrayBuffer (list_byte_of_string text)) 1)) as Hb1
    by apply lookup_insert_eq.
  exists regionPtr, buf, h1.
  split; [exact Hb|]. split; [reflexivity|]. split; [exact Hr|].
  split; [unfold region_bytes; by rewrite Hr|].
  split.
  - intros Hk. eapply log_run. fold buf h1 regionPtr. by rewrite Hk.
  - intros Hk. erewrite log_run; fold buf h1 regionPtr; rewrite Hk; [|exact Hb1].
    unfold h1. by rewrite delete_insert_eq, delete_id.
Qed.

(** X9: What [canonicalize] hands the host: an output pointer to a live
    Region over a buffer of 50 bytes, and an input pointer at which nothing
    is allocated, because the Region record [keepOwnership] made is already
    freed; the encoded address is in memory, in a buffer of its own, but the
    host cannot read it through the input pointer.  Everything that was in
    memory before the call is still there. *)
Theorem canonicalize_hands_host_a_freed_input_region (stale : N → byte)
    (human : string) (s : state) :
  ∃ inP outP s1 inBuf d,
    canonicalize_setup stale human s = Ret (inP, outP) s1 ∧
    (∀ env, canonicalize env stale human s
            = canonicalize_rest env (utf8_array human s) inP outP s1) ∧
    heap s1 !! inP = None ∧
    region_bytes (heap s1) inP = None ∧
    heap s1 !! inBuf = Some (mkCell (ArrayBuffer (list_byte_of_string human)) 1) ∧
    region_bytes (heap s1) outP = Some d ∧
    List.length d = 50%nat ∧
    heap s ⊆ heap s1.
Proof.
  destruct (canonicalize_setup_total stale human s) as (inP & outP & s1 & Hs).
  destruct (canonicalize_setup_output _ _ _ _ _ _ Hs)
    as (dataPtr & d & Hr & Hd & Hlen & _ & _ & Hne & _).
  destruct (canonicalize_setup_input _ _ _ _ _ _ Hs) as (I1 & _ & I2 & _ & _ & I3).
  exists inP, outP, s1, (fresh_ptr (heap s)), d.
  split; [exact Hs|].
  split; [intros env; by apply canonicalize_split|].
  split; [exact I2|].
  split; [unfold region_bytes; by rewrite I2|].
  split; [exact I1|].
  split.
  { unfold region_bytes. rewrite Hr. cbn [offset len].
    rewrite (view_bytes_intro _ _ d 1); cbn [buffer byteOffset byteLength].
    - change (N.to_nat 0) with 0%nat. rewrite drop_0.
      rewrite take_ge; [done|]. rewrite Hlen. lia.
    - exact Hd.
    - rewrite Hlen. lia. }
  split; [exact Hlen|exact I3].
Qed.

(** X10: [canonicalize] looks at the sign of the return code only: two hosts that
    leave the same memory behind and both return a non-negative code give
    the same result, whatever the two codes are. *)
Theorem canonicalize_ignores_code_magnitude (env1 env2 : HostEnv) (stale : N → byte)
    (human : string) (s : state) inP outP s1 :
  canonicalize_setup stale human s = Ret (inP, outP) s1 →
  (env_canonicalize_address env1 inP outP (heap s1)).1
  = (env_canonicalize_address env2 inP outP (heap s1)).1 →
  (0 ≤ (env_canonicalize_address env1 inP outP (heap s1)).2)%Z →
  (0 ≤ (env_canonicalize_address env2 inP outP (heap s1)).2)%Z →
  canonicalize env1 stale human s = canonicalize env2 stale human s.
Proof.
  intros Hs Hh H1 H2.
  rewrite !(canonicalize_split _ _ _ _ _ _ _ Hs). unfold canonicalize_rest.
  erewrite !bind_Ret by (unfold call_env_canonicalize_address; reflexivity).
  destruct (Z.ltb_spec (env_canonicalize_address env1 inP outP (heap s1)).2 0); [lia|].
  destruct (Z.ltb_spec (env_canonicalize_address env2 inP outP (heap s1)).2 0); [lia|].
  by rewrite Hh.
Qed.

(** X11: A host that succeeds but leaves in the output Region a length
    that is larger than the buffer, and is not [2^32 - 1], makes
    [canonicalize] throw a [RangeError] out of [readRegion]; [deallocate] is
    not reached: no [__release] is made, and the output Region record and
    its buffer are still allocated. *)
Theorem canonicalize_len_beyond_buffer (env : HostEnv) (stale : N → byte)
    (human : string) (s : state) inP outP s1 h2 code dataPtr k m d n :
  canonicalize_setup stale human s = Ret (inP, outP) s1 →
  env_canonicalize_address env inP outP (heap s1) = (h2, code) →
  (0 ≤ code)%Z →
  h2 !! outP = Some (mkCell (RegionObj (mkRegion dataPtr k)) m) →
  h2 !! dataPtr = Some (mkCell (ArrayBuffer d) n) →
  N.of_nat (List.length d) < k →
  k < 2 ^ 32 - 1 →
  ∃ e s',
    canonicalize env stale human s = Throw e s' ∧
    e = new_RangeError "Invalid length" ∧
    rc_log s' = rc_log s1 ∧
    outP ∈ dom (heap s') ∧ dataPtr ∈ dom (heap s').
Proof.
  intros Hs Hh Hc Hr Hd Hlt Hk.
  rewrite (canonicalize_split _ _ _ _ _ _ _ Hs). unfold canonicalize_rest.
  destruct s1 as [h1 l1]. cbn [heap rc_log] in *.
  erewrite bind_Ret by (unfold call_env_canonicalize_address; reflexivity).
  norm. rewrite Hh. cbn [fst snd].
  destruct (Z.ltb_spec code 0); [lia|].
  unfold mbind, M_bind.
  assert (readRegion outP (mkState h2 l1)
          = Throw (new_RangeError "Invalid length") (mkState h2 l1)) as ->.
  { unfold readRegion.
    erewrite bind_Ret by (eapply load_Region_run; norm; exact Hr).
    unfold Uint8Array_wrap. cbn [heap offset len]. rewrite Hd.
    destruct (N.ltb_spec (N.of_nat (List.length d)) 0); [lia|].
    unfold as_i32. destruct (N.ltb_spec k (2 ^ 31)).
    - destruct (Z.ltb_spec (Z.of_N k) 0); [lia|].
      rewrite N2Z.id, N.add_0_l.
      by destruct (N.ltb_spec (N.of_nat (List.length d)) k); [|lia].
    - destruct (Z.ltb_spec (Z.of_N k - 2 ^ 32) 0); [|lia].
      by destruct (Z.eqb_spec (Z.of_N k - 2 ^ 32) (-1)); [lia|]. }
  eexists _, _. split; [reflexivity|]. cbn [heap rc_log].
  repeat split; try done; apply elem_of_dom; eauto.
Qed.

(** X12: A successful [canonicalize] leaves nothing behind but its result:
    with a host that wrote to the output Region only, every address other
    than the result's buffer holds after the call what it held before it.
    The encoded input and the output Region record are freed. *)
Theorem canonicalize_success_leaves_only_the_result (env : HostEnv) (stale : N → byte)
    (human : string) (s : state) inP outP s1 h2 code dataPtr k d :
  canonicalize_setup stale human s = Ret (inP, outP) s1 →
  env_canonicalize_address env inP outP (heap s1) = (h2, code) →
  (0 ≤ code)%Z →
  heap s1 !! outP = Some (mkCell (RegionObj (mkRegion dataPtr 50)) 1) →
  h2 !! outP = Some (mkCell (RegionObj (mkRegion dataPtr k)) 1) →
  h2 !! dataPtr = Some (mkCell (ArrayBuffer d) 1) →
  delete dataPtr (delete outP h2) = delete dataPtr (delete outP (heap s1)) →
  k ≤ N.of_nat (List.length d) →
  k < 2 ^ 31 →
  ∃ out s',
    canonicalize env stale human s = Ret out s' ∧
    buffer out = dataPtr ∧
    heap s !! dataPtr = None ∧
    (∀ p, p ≠ dataPtr → heap s' !! p = heap s !! p).
Proof.
  intros Hs Hh Hc Hr1 Hr Hd Hframe Hle Hk.
  destruct (canonicalize_setup_output _ _ _ _ _ _ Hs)
    as (dataPtr0 & d0 & Hr0 & Hd0 & Hlen0 & F1 & F2 & Hne0 & Hlog).
  assert (dataPtr0 = dataPtr) as -> by congruence.
  destruct (canonicalize_setup_input _ _ _ _ _ _ Hs) as (I1 & I0 & _ & I2 & I3 & _).
  destruct (I3 _ _ Hr1) as [I4 I5].
  assert (∀ p, p ≠ outP → p ≠ dataPtr → h2 !! p = heap s1 !! p) as Hfr.
  { intros p P1 P2.
    assert (∀ X : gmap N cell, delete dataPtr (delete outP X) !! p = X !! p) as Hdel
      by (intros X; by rewrite !lookup_delete_ne).
    rewrite <- (Hdel h2), Hframe. apply Hdel. }
  eexists _, _.
  split.
  { eapply canonicalize_nonnegative; eauto. }
  cbn [heap buffer]. split; [reflexivity|]. split; [exact F2|].
  intros p Hp.
  destruct (decide (p = fresh_ptr (heap s))) as [->|P1].
  { by rewrite lookup_delete_eq, I0. }
  rewrite lookup_delete_ne by done.
  destruct (decide (p = outP)) as [->|P2].
  { by rewrite lookup_delete_eq, F1. }
  rewrite lookup_delete_ne by done.
  rewrite Hfr by done. by apply I5.
Qed.

(** ** A further property of [wrapOk] *)

(** What [wrapOk] does to the state. *)
Lemma wrapOk_run b bs h l :
  view_bytes h b = Some bs →
  let txt := list_byte_of_string (ok_envelope (Base64.encode bs)) in
  wrapOk b (mkState h l)
  = Ret (mkUint8Array (fresh_ptr h) 0 (N.of_nat (List.length txt)))
        (mkState (<[fresh_ptr h := mkCell (ArrayBuffer txt) 1]> h) l).
Proof.
  intros Hv txt. unfold wrapOk.
  assert (JSONEncoder.pushObject None JSONEncoder.new
          = Some (JSONEncoder.mk [true; false] ["{"])) as -> by reflexivity.
  erewrite bind_Ret by reflexivity.
  erewrite bind_Ret by (unfold read_bytes; norm; rewrite Hv; reflexivity).
  assert (JSONEncoder.setString (Some "ok") (Base64.encode bs)
            (JSONEncoder.mk [true; false] ["{"])
          = Some (JSONEncoder.mk [false; false]
                    ["{"; dquote; "ok"; dquote; ":"; dquote; Base64.encode bs; dquote])) as ->.
  { unfold JSONEncoder.setString, JSONEncoder.writeKey.
    cbn [JSONEncoder.isFirstKey JSONEncoder.result].
    assert (JSONEncoder.writeString "ok" (JSONEncoder.mk [false; false] ["{"])
            = Some (JSONEncoder.mk [false; false] ["{"; dquote; "ok"; dquote])) as ->
      by reflexivity.
    cbn [mbind option_bind].
    unfold JSONEncoder.writeString.
    rewrite escape_plain by apply encode_octets_plain.
    reflexivity. }
  erewrite bind_Ret by reflexivity.
  unfold JSONEncoder.serialize.
  assert (JSONEncoder.toString
            (JSONEncoder.popObject
               (JSONEncoder.mk [false; false]
                  ["{"; dquote; "ok"; dquote; ":"; dquote; Base64.encode bs; dquote]))
          = ok_envelope (Base64.encode bs)) as -> by reflexivity.
  reflexivity.
Qed.

(** X13: [wrapOk] only adds: its result is one new buffer, held once; every
    block that was in memory is unchanged, the input array still shows its
    bytes, and nothing is retained or released. *)
Theorem wrapOk_leaves_memory_alone (b : Uint8Array) (bs : list byte) (s : state) :
  view_bytes (heap s) b = Some bs →
  ∃ out s',
    wrapOk b s = Ret out s' ∧
    heap s !! buffer out = None ∧
    heap s ⊆ heap s' ∧
    size (heap s') = S (size (heap s)) ∧
    view_bytes (heap s') b = Some bs ∧
    byteOffset out = 0 ∧
    (∃ d, heap s' !! buffer out = Some (mkCell (ArrayBuffer d) 1) ∧
          byteLength out = N.of_nat (List.length d)) ∧
    rc_log s' = rc_log s.
Proof.
  intros Hv. destruct s as [h l]. cbn [heap rc_log] in *.
  eexists _, _. split; [by apply wrapOk_run|]. cbn [heap rc_log buffer byteOffset byteLength].
  assert (h !! fresh_ptr h = None) as Hf by apply fresh_ptr_None.
  split; [exact Hf|].
  split; [by apply insert_subseteq|].
  split; [by apply map_size_insert_None|].
  split.
  { apply view_bytes_Some in Hv as (d & n & E & Hle & ->).
    apply (view_bytes_intro _ _ d n); [|done].
    rewrite lookup_insert_ne; [done|]. intros Heq. by rewrite Heq, E in Hf. }
  split; [reflexivity|].
  split; [|reflexivity].
  eexists. split; [apply lookup_insert_eq|reflexivity].
Qed.

(** ** The further properties at concrete inputs *)

(** A Region of length 1 over the buffer holding "hi" reads as "h". *)
Lemma readRegion_prefix_of_hi :
  ∃ out s',
    readRegion 2 (region_state 1) = Ret out s' ∧
    view_bytes (heap s') out = Some [x68]%byte ∧
    dom (heap s') = dom (heap (region_state 1)).
Proof.
  edestruct (readRegion_is_a_view 2 (region_state 1))
    as (out & s' & Hrun & _ & Hv & Hdom & _).
  - vm_compute. reflexivity.
  - vm_compute. reflexivity.
  - vm_compute. reflexivity.
  - vm_compute. discriminate.
  - exists out, s'. split; [exact Hrun|]. split; [exact Hv|exact Hdom].
Defined.

(** A Region of length 3 over the two-byte buffer is refused. *)
Lemma readRegion_three_of_two :
  ∃ s', readRegion 2 (region_state 3) = Throw (new_RangeError "Invalid length") s'.
Proof.
  edestruct (readRegion_len_beyond_buffer 2 (region_state 3)) as [Hrun _].
  - vm_compute. reflexivity.
  - vm_compute. reflexivity.
  - vm_compute. reflexivity.
  - vm_compute. reflexivity.
  - exact Hrun.
Defined.

Lemma releaseOwnership_hi_region :
  ∃ regionPtr s1,
    releaseOwnership hi_array hi_state = Ret regionPtr s1 ∧
    region_bytes (heap s1) regionPtr = Some hi_bytes.
Proof.
  destruct (releaseOwnership_describes_the_array hi_array hi_bytes hi_state)
    as (regionPtr & s1 & d & n & Hrun & _ & Hb & _).
  - unfold is_array. split; [vm_compute; reflexivity|].
    split; [reflexivity|vm_compute; reflexivity].
  - exists regionPtr, s1. split; [exact Hrun|exact Hb].
Defined.

Lemma releaseOwnership_then_deallocate_hi :
  ∃ regionPtr s1 s2,
    releaseOwnership hi_array hi_state = Ret regionPtr s1 ∧
    deallocate regionPtr s1 = Ret () s2 ∧
    heap s2 = heap hi_state.
Proof.
  edestruct (releaseOwnership_then_deallocate hi_array hi_state)
    as (regionPtr & s1 & s2 & Hrel & Hde & Hh & _).
  - reflexivity.
  - vm_compute. reflexivity.
  - exists regionPtr, s1, s2. split; [exact Hrel|]. split; [exact Hde|exact Hh].
Defined.

Lemma takeOwnership_of_hi_region :
  ∃ out s',
    takeOwnership 2 (region_state 2) = Ret out s' ∧
    view_bytes (heap s') out = Some hi_bytes ∧
    heap s' = delete 2 (heap (region_state 2)).
Proof.
  edestruct (takeOwnership_frees_only_the_record 2 (region_state 2))
    as (out & s' & Hrun & _ & Hv & Hh & _).
  - vm_compute. reflexivity.
  - vm_compute. reflexivity.
  - vm_compute. reflexivity.
  - vm_compute. discriminate.
  - exists out, s'. split; [exact Hrun|]. split; [exact Hv|exact Hh].
Defined.

Lemma takeOwnership_after_allocate_three :
  ∃ regionPtr s1 out s2 d,
    allocate zeroed 3 empty_state = Ret regionPtr s1 ∧
    takeOwnership regionPtr s1 = Ret out s2 ∧
    view_bytes (heap s2) out = Some d ∧
    List.length d = 3%nat ∧
    heap s2 !! regionPtr = None.
Proof.
  destruct (takeOwnership_after_allocate zeroed 3 empty_state)
    as (regionPtr & dataPtr & s1 & out & s2 & d & Ha & Ht & _ & Hv & Hlen & _ & _ & Hr).
  - vm_compute. reflexivity.
  - exists regionPtr, s1, out, s2, d.
    split; [exact Ha|]. split; [exact Ht|]. split; [exact Hv|].
    split; [exact Hlen|exact Hr].
Defined.

(** Return codes 0 and 7, same memory: same result. *)
Lemma canonicalize_code_zero_or_seven :
  canonicalize (stub_host [x01; x02]%byte None 0) zeroed "cosmos1" empty_state
  = canonicalize (stub_host [x01; x02]%byte None 7) zeroed "cosmos1" empty_state.
Proof.
  eapply (canonicalize_ignores_code_magnitude
            (stub_host [x01; x02]%byte None 0) (stub_host [x01; x02]%byte None 7)).
  - vm_compute. reflexivity.
  - reflexivity.
  - vm_compute. discriminate.
  - vm_compute. discriminate.
Defined.

(** A host that stores 51 as the length of the 50-byte output Region. *)
Lemma canonicalize_len_fifty_one :
  ∃ e s',
    canonicalize (stub_host [] (Some 51) 0) zeroed "cosmos1" empty_state = Throw e s' ∧
    e = new_RangeError "Invalid length".
Proof.
  edestruct (canonicalize_len_beyond_buffer
               (stub_host [] (Some 51) 0) zeroed "cosmos1" empty_state)
    as (e & s' & Hrun & He & _).
  - vm_compute. reflexivity.
  - vm_compute. reflexivity.
  - vm_compute. discriminate.
  - vm_compute. reflexivity.
  - vm_compute. reflexivity.
  - vm_compute. reflexivity.
  - vm_compute. reflexivity.
  - exists e, s'. split; [exact Hrun|exact He].
Defined.

(** After a successful call from the empty state, address 1 (where the
    encoded input was) is free again. *)
Lemma canonicalize_two_bytes_leaves_only_the_result :
  ∃ out s',
    canonicalize (stub_host [x01; x02]%byte (Some 2) 0) zeroed "cosmos1" empty_state
    = Ret out s' ∧
    buffer out = 2 ∧
    heap s' !! 1 = None ∧ heap s' !! 3 = None.
Proof.
  edestruct (canonicalize_success_leaves_only_the_result
               (stub_host [x01; x02]%byte (Some 2) 0) zeroed "cosmos1" empty_state)
    as (out & s' & Hrun & Hb & _ & Hrest).
  - vm_compute. reflexivity.
  - vm_compute. reflexivity.
  - vm_compute. discriminate.
  - vm_compute. reflexivity.
  - vm_compute. reflexivity.
  - vm_compute. reflexivity.
  - vm_compute. reflexivity.
  - vm_compute. discriminate.
  - vm_compute. reflexivity.
  - exists out, s'. split; [exact Hrun|]. split; [exact Hb|].
    split; apply Hrest; discriminate.
Defined.

(** [log("hi")] with a host that touches nothing returns in the state it
    started from. *)
Lemma log_hi_returns_in_start_state :
  log (failing_host 0) "hi" empty_state = Ret () empty_state.
Proof.
  destruct (log_hands_host_a_freed_region (failing_host 0) "hi" empty_state)
    as (regionPtr & buf & h1 & _ & _ & _ & _ & _ & Hrun).
  apply Hrun. reflexivity.
Defined.

Lemma wrapOk_hi_leaves_memory_alone :
  ∃ out s',
    wrapOk hi_array hi_state = Ret out s' ∧
    view_bytes (heap s') hi_array = Some hi_bytes ∧
    size (heap s') = 2%nat.
Proof.
  destruct (wrapOk_leaves_memory_alone hi_array hi_bytes hi_state)
    as (out & s' & Hrun & _ & _ & Hsize & Hv & _).
  - vm_compute. reflexivity.
  - exists out, s'. split; [exact Hrun|]. split; [exact Hv|exact Hsize].
Defined.
